(** * BSCC: the BLOCC system chaincode

    A shallow embedding of the [bscc] package (dispatcher [Invoke],
    initialisation [Init], the event pipeline [processEvent] with its
    resolver, credential staging and cleanup, and the fork oracle
    [CheckForkStatus]), followed by the properties of the specification
    that concern them.

    Go values are modelled as follows: [string] is [string], [[]byte] is
    [list byte] (a nil slice and an empty one are both [[]]), [error] is
    the inductive [error] below ([None] is Go's nil error), a function
    that returns [(v, err)] returns a [result].  Everything the package
    does to its surroundings (environment, filesystem, registry lookup,
    approval command, logger) goes through the monad [M], which threads
    the [State] and records every call that leaves the package. *)

From Stdlib Require Import ZArith Strings.Ascii Strings.Byte Lia.
From stdpp Require Import gmap strings list pretty.

Open Scope string_scope.
Open Scope list_scope.

(** ** Go basics *)

Definition bytes := list byte.

Inductive Fault := EACCES | ENOTDIR | ENAMETOOLONG | EIO | ENOSPC | EMFILE | EROFS.

Inductive Errno := ENOENT | EEXIST | Efault (f : Fault).

Definition strerror (no : Errno) : string :=
  match no with
  | ENOENT => "no such file or directory"
  | EEXIST => "file exists"
  | Efault EACCES => "permission denied"
  | Efault ENOTDIR => "not a directory"
  | Efault ENAMETOOLONG => "file name too long"
  | Efault EIO => "input/output error"
  | Efault ENOSPC => "no space left on device"
  | Efault EMFILE => "too many open files"
  | Efault EROFS => "read-only file system"
  end.

(** A Go [error]: an [*os.PathError] or the text-only error of
    [errors.New]. *)
Inductive error :=
| PathError (Op Path : string) (Err : Errno)
| errorString (s : string).

Definition Error (e : error) : string :=
  match e with
  | PathError op path no => op +:+ " " +:+ path +:+ ": " +:+ strerror no
  | errorString s => s
  end.

Module errors.
Definition New (text : string) : error := errorString text.

(** [errors.Wrap]: the message, a colon and the text of the cause. *)
Definition Wrap (err : error) (message : string) : error :=
  errorString (message +:+ ": " +:+ Error err).
End errors.

Inductive result (A : Type) :=
| Ok (a : A)
| Err (e : error).
Arguments Ok {A} a.
Arguments Err {A} e.

(** ** The peer response ([pb.Response]) and its two builders ([shim]) *)

Module pb.
Record Response := mkResponse {
  Status : Z;
  Message : string;
  Payload : bytes
}.
End pb.

Module shim.
Definition OK : Z := 200.
Definition ERROR : Z := 500.

Definition Success (payload : bytes) : pb.Response :=
  {| pb.Status := OK; pb.Message := ""; pb.Payload := payload |}.

Definition Error (msg : string) : pb.Response :=
  {| pb.Status := ERROR; pb.Message := msg; pb.Payload := [] |}.
End shim.

(** ** The surroundings of the process

    [files] are the regular files that exist, with their contents.
    [stat_fault] lists the paths at which a lookup is refused for a
    reason other than absence (an unsearchable directory, a path
    component that is no directory, ...); whether a file exists at such a
    path is independent of the refusal.  [open_fault], [write_fault],
    [close_fault] and [remove_fault] make the matching call fail: a
    refused removal leaves the file where it is.  [tmp_seed] is the
    state of the generator of scratch-file names. *)

Record World := mkWorld {
  environ : gmap string string;
  files : gmap string bytes;
  stat_fault : gmap string Fault;
  open_fault : option Fault;
  write_fault : option Fault;
  close_fault : option Fault;
  remove_fault : option Fault;
  tmp_seed : nat
}.

Definition set_files (fs : gmap string bytes) (w : World) : World :=
  {| environ := environ w; files := fs; stat_fault := stat_fault w;
     open_fault := open_fault w; write_fault := write_fault w;
     close_fault := close_fault w; remove_fault := remove_fault w;
     tmp_seed := tmp_seed w |}.

Definition set_tmp_seed (k : nat) (w : World) : World :=
  {| environ := environ w; files := files w; stat_fault := stat_fault w;
     open_fault := open_fault w; write_fault := write_fault w;
     close_fault := close_fault w; remove_fault := remove_fault w; tmp_seed := k |}.

Module os.

(** An open file, known by its name. *)
Record File := mkFile { Name : string }.

(** [os.LookupEnv]: the value and whether the variable is set. *)
Definition LookupEnv (w : World) (key : string) : string * bool :=
  match environ w !! key with
  | Some v => (v, true)
  | None => ("", false)
  end.

(** [os.Stat], without the [FileInfo] nobody reads. *)
Definition Stat (w : World) (name : string) : option error :=
  match stat_fault w !! name with
  | Some f => Some (PathError "stat" name (Efault f))
  | None =>
      match files w !! name with
      | Some _ => None
      | None => Some (PathError "stat" name ENOENT)
      end
  end.

Definition IsNotExist (err : option error) : bool :=
  match err with
  | Some (PathError _ _ ENOENT) => true
  | _ => false
  end.

Definition IsExist (err : option error) : bool :=
  match err with
  | Some (PathError _ _ EEXIST) => true
  | _ => false
  end.

(** [os.Remove]: refused, or failing on a path that is not there, or
    taking the file away. *)
Definition Remove (w : World) (name : string) : option error * World :=
  match remove_fault w with
  | Some f => (Some (PathError "remove" name (Efault f)), w)
  | None =>
      match files w !! name with
      | Some _ => (None, set_files (delete name (files w)) w)
      | None => (Some (PathError "remove" name ENOENT), w)
      end
  end.

(** [os.OpenFile(name, O_RDWR|O_CREATE|O_EXCL, 0600)]. *)
Definition OpenFile_excl (w : World) (name : string) : result File * World :=
  match open_fault w with
  | Some f => (Err (PathError "open" name (Efault f)), w)
  | None =>
      match files w !! name with
      | Some _ => (Err (PathError "open" name EEXIST), w)
      | None => (Ok (mkFile name), set_files (<[name := []]> (files w)) w)
      end
  end.

(** [os.Getenv]: the value, empty when the variable is not set. *)
Definition Getenv (w : World) (key : string) : string :=
  default "" (environ w !! key).

(** [os.TempDir]: $TMPDIR, or /tmp when that is empty. *)
Definition TempDir (w : World) : string :=
  let dir := Getenv w "TMPDIR" in
  if decide (dir = "") then "/tmp" else dir.

(** [File.Write] appends to the file's contents. *)
Definition Write (w : World) (f : File) (b : bytes) : option error * World :=
  match write_fault w with
  | Some ft => (Some (PathError "write" (Name f) (Efault ft)), w)
  | None =>
      let old := default [] (files w !! Name f) in
      (None, set_files (<[Name f := old ++ b]> (files w)) w)
  end.

Definition Close (w : World) (f : File) : option error * World :=
  match close_fault w with
  | Some ft => (Some (PathError "close" (Name f) (Efault ft)), w)
  | None => (None, w)
  end.

End os.

Module filepath.

(** The elements of a path, split at every slash. *)
Fixpoint elements (path : string) : list string :=
  match path with
  | EmptyString => [""]
  | String c rest =>
      if Ascii.eqb c "/"%char then "" :: elements rest
      else match elements rest with
           | x :: xs => String c x :: xs
           | [] => [String c ""]
           end
  end.

(** One element more on the elements kept so far (last one first):
    empty elements and "." are dropped, ".." takes the element before it
    away, or stays when there is none to take and the path is not
    rooted. *)
Definition keep (rooted : bool) (kept : list string) (x : string) : list string :=
  if decide (x = "") then kept
  else if decide (x = ".") then kept
  else if decide (x = "..") then
    match kept with
    | top :: below => if decide (top = "..") then x :: kept else below
    | [] => if rooted then [] else [x]
    end
  else x :: kept.

Fixpoint joined (xs : list string) : string :=
  match xs with
  | [] => ""
  | [x] => x
  | x :: rest => x +:+ "/" +:+ joined rest
  end.

(** [filepath.Clean]. *)
Definition Clean (path : string) : string :=
  if decide (path = "") then "."
  else
    let rooted := match path with
                  | String c _ => Ascii.eqb c "/"%char
                  | EmptyString => false
                  end in
    let out := joined (rev (fold_left (keep rooted) (elements path) [])) in
    if rooted then "/" +:+ out
    else if decide (out = "") then "." else out.

(** [filepath.Join] of two elements: the empty ones are ignored, the
    result is cleaned. *)
Definition Join (a b : string) : string :=
  if decide (a = "") then (if decide (b = "") then "" else Clean b)
  else if decide (b = "") then Clean a
  else Clean (a +:+ "/" +:+ b).

End filepath.

Module ioutil.

Definition attempts : nat := N.to_nat 10000.

(** The loop of [ioutil.TempFile]: try a name, on a clash try the next
    one, give up after [attempts] clashes with the last error. *)
Fixpoint TempFile_loop (fuel : nat) (dir pattern : string) (w : World)
  : result os.File * World :=
  let name := filepath.Join dir (pattern +:+ pretty (tmp_seed w)) in
  let w' := set_tmp_seed (S (tmp_seed w)) w in
  match fuel with
  | O => (Err (PathError "open" name EEXIST), w)
  | S fuel' =>
      match os.OpenFile_excl w' name with
      | (Ok f, w'') => (Ok f, w'')
      | (Err e, w'') =>
          if os.IsExist (Some e)
          then match fuel' with
               | O => (Err e, w'')
               | S _ => TempFile_loop fuel' dir pattern w''
               end
          else (Err e, w'')
      end
  end.

Definition TempFile (w : World) (dir pattern : string) : result os.File * World :=
  let dir := if decide (dir = "") then os.TempDir w else dir in
  TempFile_loop attempts dir pattern w.

End ioutil.

Module json.
(** [json.Marshal] at a [bool]: the literal, never an error. *)
Definition Marshal (b : bool) : result bytes :=
  Ok (String.list_byte_of_string (if b then "true" else "false")).
End json.

(** ** Types of the neighbouring packages *)

(** Modelled from the spec: the event type of [common/blocc-events] is
    not part of the sources at hand; an event is {channel identifier,
    sensory-reading transaction identifier}, the two fields
    [processEvent] and [approveSensoryReading] read. *)
Record Event := mkEvent {
  ChannelID : string;
  SensoryTxID : string
}.

(** The text [%v] prints for an event. *)
Definition Event_String (e : Event) : string :=
  "{" +:+ ChannelID e +:+ " " +:+ SensoryTxID e +:+ "}".

(** Modelled from the spec: the registry entry of an ordering-service
    organization, with an address list and a root-certificate list; the
    registry lookup yields an ordered list of them. *)
Record OrdererOrg := mkOrdererOrg {
  Addresses : list string;
  RootCerts : list bytes
}.

(** A handle on a crypto provider; [None] is the nil interface. *)
Definition BCCSP := option nat.

Module peer.
(** The part of [peer.Peer] the chaincode uses.  [GetOrdererInfo]
    yields the organizations and an error (its first result, which
    [gatherOrdererInfo] discards, is left out). *)
Record Peer := mkPeer {
  GetOrdererInfo : string -> list OrdererOrg * option error;
  CryptoProvider : BCCSP
}.
End peer.

Record SignedProposal := mkSignedProposal {
  ProposalBytes : bytes;
  Signature : bytes
}.

(** What [Invoke] asks of [shim.ChaincodeStubInterface].
    [GetSignedProposal] answers with a pointer, [None] when nil, and an
    error, [None] when nil; both can be nil at once. *)
Record ChaincodeStub := mkStub {
  GetArgs : list bytes;
  GetSignedProposal : option SignedProposal * option error
}.

(** ** The chaincode object *)

Record Config := mkConfig {
  PeerAddress : string;
  TLSCertFile : string;
  CryptoProvider : BCCSP
}.

Record BSCC := mkBSCC {
  peerInstance : peer.Peer;
  config : Config
}.

Definition New (peerInstance : peer.Peer) : BSCC :=
  {| peerInstance := peerInstance;
     config := {| PeerAddress := ""; TLSCertFile := ""; CryptoProvider := None |} |}.

(** The function names of the [const] block (the first one shares its
    name with a method, hence the module). *)
Module const.
Definition approveSensoryReading : string := "ApproveSensoryReading".
Definition simulateForkAttempt : string := "SimulateForkAttempt".
Definition checkForkStatus : string := "CheckForkStatus".
End const.

(** ** State and effects *)

(** The calls that leave the package, in the order they are made. *)
Inductive Call :=
| CallGetArgs
| CallGetSignedProposal
| CallLookupEnv (key : string)
| CallGo
| CallGetOrdererInfo (channelID : string)
| CallTempFile (dir pattern : string)
| CallWrite (name : string)
| CallClose (name : string)
| CallRemove (name : string)
| CallStat (name : string)
| CallExecute (args : list string).

Inductive Level := INFO | WARNING | ERROR.

(** [self] is the object behind the receiver pointer [bscc]; [consumers]
    counts the goroutines [Init] has started, each one a loop over the
    event bus. *)
Record State := mkState {
  world : World;
  self : BSCC;
  consumers : nat;
  calls : list Call;
  log : list (Level * string)
}.

Inductive outcome (A : Type) :=
| Return (a : A)
| Panic (msg : string).
Arguments Return {A} a.
Arguments Panic {A} msg.

Definition M (A : Type) : Type := State -> outcome A * State.

#[global] Instance M_ret : MRet M := fun A a st => (Return a, st).

#[global] Instance M_bind : MBind M := fun A B f m st =>
  match m st with
  | (Return a, st') => f a st'
  | (Panic msg, st') => (Panic msg, st')
  end.

Definition panic {A} (msg : string) : M A := fun st => (Panic msg, st).

Definition call (c : Call) : M unit := fun st =>
  (Return (),
   {| world := world st; self := self st; consumers := consumers st;
      calls := calls st ++ [c]; log := log st |}).

Definition logger (l : Level) (msg : string) : M unit := fun st =>
  (Return (),
   {| world := world st; self := self st; consumers := consumers st;
      calls := calls st; log := log st ++ [(l, msg)] |}).

Definition get_self : M BSCC := fun st => (Return (self st), st).

Definition set_config (c : Config) : M unit := fun st =>
  (Return (),
   {| world := world st;
      self := {| peerInstance := peerInstance (self st); config := c |};
      consumers := consumers st; calls := calls st; log := log st |}).

Definition set_world (w : World) (st : State) : State :=
  {| world := w; self := self st; consumers := consumers st;
     calls := calls st; log := log st |}.

(** An operation of the surroundings, recorded and run on the world. *)
Definition syscall {A} (c : Call) (f : World -> A * World) : M A := fun st =>
  let st' := {| world := world st; self := self st; consumers := consumers st;
                calls := calls st ++ [c]; log := log st |} in
  let '(a, w) := f (world st) in (Return a, set_world w st').

(** [go f()] inside [Init]: one more consumer runs from here on. *)
Definition go_consumer : M unit := fun st =>
  (Return (),
   {| world := world st; self := self st; consumers := S (consumers st);
      calls := calls st ++ [CallGo]; log := log st |}).

(** [defer d] around [body]: [d] runs when [body] is left, also by a
    panic, which goes on afterwards. *)
Definition defer {A} (d : M unit) (body : M A) : M A := fun st =>
  let '(o, st') := body st in
  match d st' with
  | (Return _, st'') => (o, st'')
  | (Panic msg, st'') => (Panic msg, st'')
  end.

(** [l[i]], with the runtime's bounds check. *)
Definition index {A} (l : list A) (i : nat) : M A :=
  match l !! i with
  | Some x => mret x
  | None =>
      panic ("runtime error: index out of range [" +:+ pretty i +:+
             "] with length " +:+ pretty (length l))
  end.

(** A field read through a pointer, with the runtime's nil check. *)
Definition deref {A} (p : option A) : M A :=
  match p with
  | Some x => mret x
  | None => panic "runtime error: invalid memory address or nil pointer dereference"
  end.

Module sys.
Definition LookupEnv (key : string) : M (string * bool) :=
  syscall (CallLookupEnv key) (fun w => (os.LookupEnv w key, w)).
Definition Stat (name : string) : M (option error) :=
  syscall (CallStat name) (fun w => (os.Stat w name, w)).
Definition Remove (name : string) : M (option error) :=
  syscall (CallRemove name) (fun w => os.Remove w name).
Definition TempFile (dir pattern : string) : M (result os.File) :=
  syscall (CallTempFile dir pattern) (fun w => ioutil.TempFile w dir pattern).
Definition Write (f : os.File) (b : bytes) : M (option error) :=
  syscall (CallWrite (os.Name f)) (fun w => os.Write w f b).
Definition Close (f : os.File) : M (option error) :=
  syscall (CallClose (os.Name f)) (fun w => os.Close w f).
End sys.

Module bloccProtoLogger.
Definition Info := logger INFO.
Definition Infof := logger INFO.
Definition Warningf := logger WARNING.
Definition Error := logger ERROR.
Definition Errorf := logger ERROR.
End bloccProtoLogger.

(** ** The methods of [BSCC] *)

Module BSCC.
Section Methods.

(** [protoutil.InvokedChaincodeName]: the chaincode name a proposal
    was made for, or why it cannot be read. *)
Variable InvokedChaincodeName : bytes -> result string.

(** The approval command of [blocc.ApproveForThisPeerCmd], built with
    a crypto provider, given its arguments and executed: it may do
    anything to the surroundings and ends with nil or an error. *)
Variable ApproveForThisPeerCmd : BCCSP -> list string -> World -> option error * World.

Definition Name : string := "bscc".

Definition gatherOrdererInfo (channelID : string) : M (result (string * bytes)) :=
  bscc ← get_self;
  _ ← call (CallGetOrdererInfo channelID);
  let '(ordererOrg, err) := peer.GetOrdererInfo (peerInstance bscc) channelID in
  match err with
  | Some e => mret (Err e)
  | None =>
      if (length ordererOrg =? 0)%nat
      then mret (Err (errors.New "No orderer organization found"))
      else
        match ordererOrg with
        | orderer :: _ =>
            address ← index (Addresses orderer) 0;
            rootCertFile ← index (RootCerts orderer) 0;
            mret (Ok (address, rootCertFile))
        | [] => mret (Err (errors.New "Error occurred gathering orderer info"))
        end
  end.

Definition createTempFile (rootCertFile : bytes) : M (result string) :=
  r ← sys.TempFile "" "rootCertFile";
  match r with
  | Err e => mret (Err e)
  | Ok tempFile =>
      err ← sys.Write tempFile rootCertFile;
      match err with
      | Some e => mret (Err e)
      | None =>
          err ← sys.Close tempFile;
          match err with
          | Some e => mret (Err e)
          | None => mret (Ok (os.Name tempFile))
          end
      end
  end.

Definition removeTempFile (filePath : string) : M unit :=
  err ← sys.Remove filePath;
  match err with
  | Some e => bloccProtoLogger.Errorf ("Failed to remove temp file: " +:+ Error e)
  | None => mret ()
  end.

Definition approveSensoryReading (address rootCertFilePath : string) (event : Event)
  : M (option error) :=
  bscc ← get_self;
  let args :=
    [ "--ordererAddress=" +:+ address;
      "--rootCertFilePath=" +:+ rootCertFilePath;
      "--channelID=" +:+ ChannelID event;
      "--txID=" +:+ SensoryTxID event;
      "--peerAddress=" +:+ PeerAddress (config bscc);
      "--tlsRootCertFile=" +:+ TLSCertFile (config bscc) ] in
  err ← syscall (CallExecute args)
          (ApproveForThisPeerCmd (CryptoProvider (config bscc)) args);
  mret err.

Definition processEvent (event : Event) : M unit :=
  _ ← bloccProtoLogger.Info ("BLOCC - Received approval event: " +:+ Event_String event);
  r ← gatherOrdererInfo (ChannelID event);
  match r with
  | Err e => bloccProtoLogger.Errorf ("Failed to gather orderer info: " +:+ Error e)
  | Ok (address, rootCertFile) =>
      r ← createTempFile rootCertFile;
      match r with
      | Err e => bloccProtoLogger.Errorf ("Failed to create temp file: " +:+ Error e)
      | Ok rootCertFilePath =>
          defer (removeTempFile rootCertFilePath)
            (err ← approveSensoryReading address rootCertFilePath event;
             match err with
             | Some e =>
                 bloccProtoLogger.Errorf ("Failed to approve sensory reading: " +:+ Error e)
             | None => mret ()
             end)
      end
  end.

Definition CheckForkStatus (channelID : string) : M pb.Response :=
  if decide (channelID = "") then mret (shim.Error "ChannelID not specified")
  else
    let filename :=
      "/var/hyperledger/production/ledgersData/chains/chains/" +:+ channelID
        +:+ "/fork_info.txt" in
    err ← sys.Stat filename;
    let isForked := if os.IsNotExist err then false else true in
    match json.Marshal isForked with
    | Err e =>
        let errMsg := "BLOCC: Failed to marshal the result to JSON, error " +:+ Error e in
        _ ← bloccProtoLogger.Error errMsg;
        mret (shim.Error errMsg)
    | Ok jsonResponse => mret (shim.Success jsonResponse)
    end.

Definition Invoke (stub : ChaincodeStub) : M pb.Response :=
  args ← (_ ← call CallGetArgs; mret (GetArgs stub));
  if (length args <? 2)%nat
  then mret (shim.Error ("Incorrect number of arguments, " +:+ pretty (length args)))
  else
    arg0 ← index args 0;
    let fname := String.string_of_list_byte arg0 in
    _ ← bloccProtoLogger.Infof ("Invoke function: " +:+ fname);
    '(sp, err) ← (_ ← call CallGetSignedProposal; mret (GetSignedProposal stub));
    match err with
    | Some e =>
        mret (shim.Error ("Failed getting signed proposal from stub: [" +:+ Error e +:+ "]"))
    | None =>
        proposal ← deref sp;
        match InvokedChaincodeName (ProposalBytes proposal) with
        | Err e =>
            mret (shim.Error ("Failed to identify the called chaincode: " +:+ Error e))
        | Ok name =>
            if decide (name ≠ Name)
            then mret (shim.Error
                   ("Rejecting invoke of CSCC from another chaincode, original invocation for '"
                      +:+ name +:+ "'"))
            else if decide (fname = const.approveSensoryReading) then
              txID ← index args 1;
              _ ← bloccProtoLogger.Infof
                    ("ApproveSensoryReading for: " +:+ String.string_of_list_byte txID);
              mret (shim.Success txID)
            else if decide (fname = const.simulateForkAttempt) then
              _ ← bloccProtoLogger.Warningf "Adding a fork block!";
              mret (shim.Success [])
            else if decide (fname = const.checkForkStatus) then
              _ ← bloccProtoLogger.Infof "Checking fork status";
              arg1 ← index args 1;
              CheckForkStatus (String.string_of_list_byte arg1)
            else
              mret (shim.Error ("Requested function " +:+ fname +:+ " not found."))
        end
    end.

(** The body of the goroutine [Init] starts, run on the events its
    subscription delivers, in the order it delivers them:
    [for _event := range ... { bscc.processEvent(_event) }]. *)
Fixpoint consume (events : list Event) : M unit :=
  match events with
  | [] => mret ()
  | _event :: rest => _ ← processEvent _event; consume rest
  end.

Definition Init (stub : ChaincodeStub) : M pb.Response :=
  _ ← bloccProtoLogger.Info "Init BSCC";
  _ ← go_consumer;
  '(peerAddress, ok) ← sys.LookupEnv "CORE_PEER_ADDRESS";
  if negb ok then
    _ ← bloccProtoLogger.Error "CORE_PEER_ADDRESS is not set";
    mret (shim.Error "CORE_PEER_ADDRESS is not set")
  else
    '(tlsCertFile, ok) ← sys.LookupEnv "CORE_PEER_TLS_ROOTCERT_FILE";
    if negb ok then
      _ ← bloccProtoLogger.Error "CORE_PEER_TLS_ROOTCERT_FILE is not set";
      mret (shim.Error "CORE_PEER_TLS_ROOTCERT_FILE is not set")
    else
      bscc ← get_self;
      _ ← set_config {| PeerAddress := peerAddress;
                        TLSCertFile := tlsCertFile;
                        CryptoProvider := peer.CryptoProvider (peerInstance bscc) |};
      mret (shim.Success []).

End Methods.
End BSCC.

(** ** Package [chaincode]: signing a proposal *)

Module chaincode.

(** [pb.Proposal]; a nil pointer to one is [None]. *)
Record Proposal := mkProposal {
  Header : bytes;
  Payload : bytes;
  Extension : bytes
}.

(** The [Signer] interface; the nil interface is [None]. *)
Record Signer := mkSigner {
  Sign : bytes -> result bytes;
  Serialize : result bytes
}.

Section SignProposal.

(** [proto.Marshal] on a proposal. *)
Variable proto_Marshal : Proposal -> result bytes.

Definition signProposal (proposal : option Proposal) (signer : option Signer)
  : result SignedProposal :=
  match proposal with
  | None => Err (errors.New "proposal cannot be nil")
  | Some proposal =>
      match signer with
      | None => Err (errors.New "signer cannot be nil")
      | Some signer =>
          match proto_Marshal proposal with
          | Err err => Err (errors.Wrap err "error marshaling proposal")
          | Ok proposalBytes =>
              match Sign signer proposalBytes with
              | Err err => Err err
              | Ok signature =>
                  Ok {| ProposalBytes := proposalBytes; Signature := signature |}
              end
          end
      end
  end.

End SignProposal.
End chaincode.

(** ** The running peer

    The host calls [Init]; events are published on the bus by other
    parts of the peer; a consumer started by [Init] takes the oldest
    pending event and runs [processEvent] on it.  A panic that nothing
    recovers ends the process. *)

Record Node := mkNode {
  state : State;
  bus : list Event;
  responses : list pb.Response;
  crashed : bool
}.

Inductive Action :=
| HostInit (stub : ChaincodeStub)
| Publish (e : Event)
| Deliver.

Section Running.

Variable ApproveForThisPeerCmd : BCCSP -> list string -> World -> option error * World.

Definition step (a : Action) (n : Node) : option Node :=
  if crashed n then None
  else
    match a with
    | HostInit stub =>
        match BSCC.Init stub (state n) with
        | (Return r, st) =>
            Some {| state := st; bus := bus n;
                    responses := responses n ++ [r]; crashed := false |}
        | (Panic _, st) =>
            Some {| state := st; bus := bus n;
                    responses := responses n; crashed := true |}
        end
    | Publish e =>
        Some {| state := state n; bus := bus n ++ [e];
                responses := responses n; crashed := false |}
    | Deliver =>
        match consumers (state n), bus n with
        | S _, e :: pending =>
            match BSCC.processEvent ApproveForThisPeerCmd e (state n) with
            | (Return _, st) =>
                Some {| state := st; bus := pending;
                        responses := responses n; crashed := false |}
            | (Panic _, st) =>
                Some {| state := st; bus := pending;
                        responses := responses n; crashed := true |}
            end
        | _, _ => None
        end
    end.

Fixpoint run (actions : list Action) (n : Node) : option Node :=
  match actions with
  | [] => Some n
  | a :: rest =>
      match step a n with
      | Some n' => run rest n'
      | None => None
      end
  end.

End Running.

(** A peer that has just built its chaincode object with [New]. *)
Definition boot (w : World) (p : peer.Peer) : Node :=
  {| state := {| world := w; self := New p; consumers := 0; calls := []; log := [] |};
     bus := []; responses := []; crashed := false |}.

(** ** Consumers side by side

    Every call of [Init] starts a goroutine that runs the loop over the
    bus.  A consumer is at one of four points of [processEvent]; one
    step takes it to the next point: the registry lookup, the staging,
    the submission, the deferred removal.  The steps of different
    consumers, the host's calls of [Init] and the publications
    interleave in any order. *)

Inductive Stage :=
| Idle
| Resolved (event : Event) (address : string) (rootCertFile : bytes)
| Staged (event : Event) (address rootCertFilePath : string)
| Submitted (event : Event) (address rootCertFilePath : string).

Section Stages.

Variable ApproveForThisPeerCmd : BCCSP -> list string -> World -> option error * World.

(** [processEvent] up to the resolver's answer. *)
Definition resolving (event : Event) : M Stage :=
  _ ← bloccProtoLogger.Info ("BLOCC - Received approval event: " +:+ Event_String event);
  r ← BSCC.gatherOrdererInfo (ChannelID event);
  match r with
  | Err e =>
      _ ← bloccProtoLogger.Errorf ("Failed to gather orderer info: " +:+ Error e);
      mret Idle
  | Ok (address, rootCertFile) => mret (Resolved event address rootCertFile)
  end.

(** From there to the staged file and the deferred removal. *)
Definition staging (event : Event) (address : string) (rootCertFile : bytes) : M Stage :=
  r ← BSCC.createTempFile rootCertFile;
  match r with
  | Err e =>
      _ ← bloccProtoLogger.Errorf ("Failed to create temp file: " +:+ Error e);
      mret Idle
  | Ok rootCertFilePath => mret (Staged event address rootCertFilePath)
  end.

(** From there to the end of the function body. *)
Definition submitting (event : Event) (address rootCertFilePath : string) : M Stage :=
  err ← BSCC.approveSensoryReading ApproveForThisPeerCmd address rootCertFilePath event;
  _ ← match err with
      | Some e => bloccProtoLogger.Errorf ("Failed to approve sensory reading: " +:+ Error e)
      | None => mret ()
      end;
  mret (Submitted event address rootCertFilePath).

(** The deferred call. *)
Definition removing (rootCertFilePath : string) : M Stage :=
  _ ← BSCC.removeTempFile rootCertFilePath;
  mret Idle.

(** Modelled from the spec: the event bus of [common/blocc-events] is
    not part of the sources at hand; it is taken as one stream of
    events in order of publication, from which a consumer that is idle
    takes the oldest one.  The peer is then the state the goroutines
    share, the events published and not yet taken, where each consumer
    is, and whether a panic has ended the process. *)
Record Peers := mkPeers {
  shared : State;
  queue : list Event;
  stages : list Stage;
  halted : bool
}.

Inductive Move :=
| CallInit (stub : ChaincodeStub)
| Post (e : Event)
| Advance (i : nat).

(** Consumer [i] runs [m]. *)
Definition proceed (i : nat) (m : M Stage) (pending : list Event) (s : Peers) : option Peers :=
  match m (shared s) with
  | (Return stage, st) =>
      Some {| shared := st; queue := pending; stages := <[i := stage]> (stages s);
              halted := false |}
  | (Panic _, st) =>
      Some {| shared := st; queue := pending; stages := stages s; halted := true |}
  end.

Definition move (m : Move) (s : Peers) : option Peers :=
  if halted s then None
  else
    match m with
    | CallInit stub =>
        match BSCC.Init stub (shared s) with
        | (Return _, st) =>
            Some {| shared := st; queue := queue s;
                    stages := stages s
                                ++ replicate (consumers st - consumers (shared s)) Idle;
                    halted := false |}
        | (Panic _, st) =>
            Some {| shared := st; queue := queue s; stages := stages s; halted := true |}
        end
    | Post e =>
        Some {| shared := shared s; queue := queue s ++ [e]; stages := stages s;
                halted := false |}
    | Advance i =>
        match stages s !! i with
        | None => None
        | Some Idle =>
            match queue s with
            | [] => None
            | e :: pending => proceed i (resolving e) pending s
            end
        | Some (Resolved e address rootCertFile) =>
            proceed i (staging e address rootCertFile) (queue s) s
        | Some (Staged e address p) => proceed i (submitting e address p) (queue s) s
        | Some (Submitted e address p) => proceed i (removing p) (queue s) s
        end
    end.

Fixpoint moves (ms : list Move) (s : Peers) : option Peers :=
  match ms with
  | [] => Some s
  | m :: rest =>
      match move m s with
      | Some s' => moves rest s'
      | None => None
      end
  end.

End Stages.

(** A peer that has just built its chaincode object: no consumer yet. *)
Definition power_on (w : World) (p : peer.Peer) : Peers :=
  {| shared := state (boot w p); queue := []; stages := []; halted := false |}.

(** The events published by a sequence of moves, in order. *)
Fixpoint posted (ms : list Move) : list Event :=
  match ms with
  | [] => []
  | Post e :: rest => e :: posted rest
  | _ :: rest => posted rest
  end.

Definition is_CallInit (m : Move) : bool :=
  match m with
  | CallInit _ => true
  | _ => false
  end.

(** The event a consumer has in hand. *)
Definition in_hand (stage : Stage) : list Event :=
  match stage with
  | Idle => []
  | Resolved e _ _ | Staged e _ _ | Submitted e _ _ => [e]
  end.

(** ** The vocabulary of the specification *)

(** The error responses of the dispatcher, by the names the specification
    gives them. *)
Definition ArgumentCountError (n : nat) : pb.Response :=
  shim.Error ("Incorrect number of arguments, " +:+ pretty n).

Definition IdentityMismatchError (name : string) : pb.Response :=
  shim.Error ("Rejecting invoke of CSCC from another chaincode, original invocation for '"
                +:+ name +:+ "'").

Definition NoOrdererOrgError : error := errors.New "No orderer organization found".

(** The marker file of a channel. *)
Definition marker (channelID : string) : string :=
  "/var/hyperledger/production/ledgersData/chains/chains/" +:+ channelID +:+ "/fork_info.txt".

Definition marker_exists (w : World) (channelID : string) : bool :=
  bool_decide (is_Some (files w !! marker channelID)).

(** A boolean as the oracle encodes it. *)
Definition encoded (b : bool) : bytes :=
  String.list_byte_of_string (if b then "true" else "false").

(** The state after one more recorded call, and after one more log line. *)
Definition called (c : Call) (st : State) : State :=
  {| world := world st; self := self st; consumers := consumers st;
     calls := calls st ++ [c]; log := log st |}.

Definition logged (l : Level) (msg : string) (st : State) : State :=
  {| world := world st; self := self st; consumers := consumers st;
     calls := calls st; log := log st ++ [(l, msg)] |}.

(** The paths handed to [os.Remove], and the argument lists handed to the
    approval command, in a sequence of calls. *)
Fixpoint removals (cs : list Call) : list string :=
  match cs with
  | [] => []
  | CallRemove p :: cs' => p :: removals cs'
  | _ :: cs' => removals cs'
  end.

Fixpoint submissions (cs : list Call) : list (list string) :=
  match cs with
  | [] => []
  | CallExecute args :: cs' => args :: submissions cs'
  | _ :: cs' => submissions cs'
  end.

(** The state once [processEvent] has logged the event it received. *)
Definition received (e : Event) (st : State) : State :=
  logged INFO ("BLOCC - Received approval event: " +:+ Event_String e) st.

(** The six arguments of an approval, for an orderer address, a staged
    certificate path, an event and a configuration. *)
Definition approvalArgs (address rootCertFilePath : string) (event : Event) (c : Config)
  : list string :=
  [ "--ordererAddress=" +:+ address;
    "--rootCertFilePath=" +:+ rootCertFilePath;
    "--channelID=" +:+ ChannelID event;
    "--txID=" +:+ SensoryTxID event;
    "--peerAddress=" +:+ PeerAddress c;
    "--tlsRootCertFile=" +:+ TLSCertFile c ].

(** The calls of a pipeline that has come to a stage. *)
Definition begun (c : Config) (stage : Stage) : list Call :=
  match stage with
  | Idle => []
  | Resolved e _ _ => [CallGetOrdererInfo (ChannelID e)]
  | Staged e _ p =>
      [CallGetOrdererInfo (ChannelID e); CallTempFile "" "rootCertFile";
       CallWrite p; CallClose p]
  | Submitted e address p =>
      [CallGetOrdererInfo (ChannelID e); CallTempFile "" "rootCertFile";
       CallWrite p; CallClose p; CallExecute (approvalArgs address p e c)]
  end.

(** The calls of one event's pipeline, from the registry lookup to
    where it ends: at the resolver, at one of the three steps of the
    staging, or after submission and removal of the staged file. *)
Inductive pipeline (e : Event) : list Call -> Prop :=
| pipeline_unresolved :
    pipeline e [CallGetOrdererInfo (ChannelID e)]
| pipeline_open_failed :
    pipeline e [CallGetOrdererInfo (ChannelID e); CallTempFile "" "rootCertFile"]
| pipeline_write_failed (p : string) :
    pipeline e [CallGetOrdererInfo (ChannelID e); CallTempFile "" "rootCertFile";
                CallWrite p]
| pipeline_close_failed (p : string) :
    pipeline e [CallGetOrdererInfo (ChannelID e); CallTempFile "" "rootCertFile";
                CallWrite p; CallClose p]
| pipeline_submitted (address p : string) (c : Config) :
    pipeline e [CallGetOrdererInfo (ChannelID e); CallTempFile "" "rootCertFile";
                CallWrite p; CallClose p;
                CallExecute (approvalArgs address p e c); CallRemove p].

(** An argument list is the submission of an event when it names the
    event's channel and transaction. *)
Definition submission_of (e : Event) (args : list string) : Prop :=
  args !! 2%nat = Some ("--channelID=" +:+ ChannelID e)
  /\ args !! 3%nat = Some ("--txID=" +:+ SensoryTxID e).

Section Standing.

Variable ApproveForThisPeerCmd : BCCSP -> list string -> World -> option error * World.

(** Where a consumer stands: [now] is the state reached from [mid],
    the state in which it took the event in hand, by the steps that
    lead to its stage. *)
Definition standing (mid : State) (stage : Stage) (now : State) : Prop :=
  match stage with
  | Idle => now = mid
  | Resolved e address rootCertFile =>
      resolving e mid = (Return (Resolved e address rootCertFile), now)
  | Staged e address p =>
      exists rootCertFile s1,
        resolving e mid = (Return (Resolved e address rootCertFile), s1)
        /\ staging e address rootCertFile s1 = (Return (Staged e address p), now)
  | Submitted e address p =>
      exists rootCertFile s1 s2,
        resolving e mid = (Return (Resolved e address rootCertFile), s1)
        /\ staging e address rootCertFile s1 = (Return (Staged e address p), s2)
        /\ submitting ApproveForThisPeerCmd e address p s2
           = (Return (Submitted e address p), now)
  end.

(** A peer with one consumer, after the events [evs] have been
    published since [Init] left the state [st1]. *)
Definition lone_consumer (st1 : State) (evs : list Event) (s : Peers) : Prop :=
  exists stage completed blocks,
    stages s = [stage]
    /\ evs = completed ++ in_hand stage ++ queue s
    /\ (halted s = false ->
        fst (BSCC.consume ApproveForThisPeerCmd completed st1) = Return ())
    /\ standing (snd (BSCC.consume ApproveForThisPeerCmd completed st1)) stage (shared s)
    /\ Forall2 pipeline completed blocks
    /\ calls (snd (BSCC.consume ApproveForThisPeerCmd completed st1))
       = calls st1 ++ concat blocks
    /\ calls (shared s) = calls st1 ++ concat blocks ++ begun (config (self st1)) stage
    /\ self (shared s) = self st1
    /\ self (snd (BSCC.consume ApproveForThisPeerCmd completed st1)) = self st1.

End Standing.

(** ** Fixtures *)

Module Fixture.

Definition emptyWorld : World :=
  {| environ := ∅; files := ∅; stat_fault := ∅; open_fault := None;
     write_fault := None; close_fault := None;
     remove_fault := None; tmp_seed := 0 |}.

Definition org1 : OrdererOrg :=
  {| Addresses := ["orderer0.example.com:7050"; "orderer1.example.com:7050"];
     RootCerts := [String.list_byte_of_string "CERT-A"; String.list_byte_of_string "CERT-B"] |}.

Definition org2 : OrdererOrg :=
  {| Addresses := ["orderer.other.org:7050"];
     RootCerts := [String.list_byte_of_string "CERT-C"] |}.

Definition noAddress : OrdererOrg :=
  {| Addresses := []; RootCerts := [String.list_byte_of_string "CERT-A"] |}.

(** A registry: two organizations on "channel-7", none on "void", an
    organization without address on "bare", an error elsewhere. *)
Definition registry (channelID : string) : list OrdererOrg * option error :=
  if decide (channelID = "channel-7") then ([org1; org2], None)
  else if decide (channelID = "void") then ([], None)
  else if decide (channelID = "bare") then ([noAddress], None)
  else ([], Some (errors.New "channel not found")).

Definition thePeer : peer.Peer :=
  {| peer.GetOrdererInfo := registry; peer.CryptoProvider := Some 1%nat |}.

Definition fresh : State :=
  {| world := emptyWorld; self := New thePeer; consumers := 0; calls := []; log := [] |}.

(** An approval command that succeeds, and one that fails, both
    leaving the surroundings alone. *)
Definition approveOk : BCCSP -> list string -> World -> option error * World :=
  fun _ _ w => (None, w).

Definition approveFails : BCCSP -> list string -> World -> option error * World :=
  fun _ _ w => (Some (errors.New "endorsement failed"), w).

(** The proposal bytes are the name itself. *)
Definition nameOf (proposal : bytes) : result string :=
  Ok (String.string_of_list_byte proposal).

Definition stubFor (name : string) (args : list string) : ChaincodeStub :=
  {| GetArgs := String.list_byte_of_string <$> args;
     GetSignedProposal :=
       (Some {| ProposalBytes := String.list_byte_of_string name; Signature := [] |},
        None) |}.

Definition event7 : Event := {| ChannelID := "channel-7"; SensoryTxID := "tx-1" |}.

(** A world where the lookup of the marker of "channel-7" is refused
    and no marker exists. *)
Definition guarded : World :=
  {| environ := ∅; files := ∅;
     stat_fault := {[ marker "channel-7" := EACCES ]};
     open_fault := None; write_fault := None; close_fault := None;
     remove_fault := None; tmp_seed := 0 |}.

(** A world where the marker of "channel-7" exists. *)
Definition marked : World :=
  {| environ := ∅; files := {[ marker "channel-7" := [] ]}; stat_fault := ∅;
     open_fault := None; write_fault := None; close_fault := None;
     remove_fault := None; tmp_seed := 0 |}.

(** A world where scratch files can be created but not written. *)
Definition diskFull : World :=
  {| environ := ∅; files := ∅; stat_fault := ∅; open_fault := None;
     write_fault := Some ENOSPC; close_fault := None;
     remove_fault := None; tmp_seed := 0 |}.

(** A world with the two variables [Init] reads. *)
Definition configured : World :=
  {| environ := {[ "CORE_PEER_ADDRESS" := "peer0.org1:7051";
                   "CORE_PEER_TLS_ROOTCERT_FILE" := "/etc/tls/ca.crt" ]};
     files := ∅; stat_fault := ∅; open_fault := None;
     write_fault := None; close_fault := None;
     remove_fault := None; tmp_seed := 0 |}.

(** A world with the first of the two variables only. *)
Definition halfConfigured : World :=
  {| environ := {[ "CORE_PEER_ADDRESS" := "peer0.org1:7051" ]};
     files := ∅; stat_fault := ∅; open_fault := None;
     write_fault := None; close_fault := None;
     remove_fault := None; tmp_seed := 0 |}.

(** A world where a scratch file can be written but not closed. *)
Definition closeFails : World :=
  {| environ := ∅; files := ∅; stat_fault := ∅; open_fault := None;
     write_fault := None; close_fault := Some EIO;
     remove_fault := None; tmp_seed := 0 |}.

(** A world where the first scratch name is taken. *)
Definition crowded : World :=
  {| environ := ∅; files := {[ "/tmp/rootCertFile0" := String.list_byte_of_string "old" ]};
     stat_fault := ∅; open_fault := None;
     write_fault := None; close_fault := None;
     remove_fault := None; tmp_seed := 0 |}.

(** A world where removals are refused. *)
Definition stuck : World :=
  {| environ := ∅; files := ∅; stat_fault := ∅; open_fault := None;
     write_fault := None; close_fault := None;
     remove_fault := Some EACCES; tmp_seed := 0 |}.

(** A stub whose signed proposal cannot be retrieved. *)
Definition stubWithoutProposal (args : list string) : ChaincodeStub :=
  {| GetArgs := String.list_byte_of_string <$> args;
     GetSignedProposal := (None, Some (errors.New "no proposal")) |}.

(** A reader of proposals that always fails. *)
Definition unreadable (proposal : bytes) : result string :=
  Err (errors.New "malformed proposal").

(** A serializer that lays the three fields end to end, a signer that
    signs with a fixed tag in front, and one that refuses. *)
Definition marshal (p : chaincode.Proposal) : result bytes :=
  Ok (chaincode.Header p ++ chaincode.Payload p ++ chaincode.Extension p).

Definition marshalFails (p : chaincode.Proposal) : result bytes :=
  Err (errors.New "proto: size overflow").

Definition tagSigner : chaincode.Signer :=
  {| chaincode.Sign := fun msg => Ok (String.list_byte_of_string "sig:" ++ msg);
     chaincode.Serialize := Ok (String.list_byte_of_string "id") |}.

Definition deadSigner : chaincode.Signer :=
  {| chaincode.Sign := fun _ => Err (errors.New "key unavailable");
     chaincode.Serialize := Err (errors.New "key unavailable") |}.

Definition proposal1 : chaincode.Proposal :=
  {| chaincode.Header := String.list_byte_of_string "bs";
     chaincode.Payload := String.list_byte_of_string "cc";
     chaincode.Extension := [] |}.

End Fixture.

(** * Properties *)

(** ** Dispatcher *)

Section Dispatcher.

Variable InvokedChaincodeName : bytes -> result string.

(** C7. With fewer than two arguments [Invoke] answers
    ArgumentCountError, and the only thing it has done is to read the
    arguments: the signed proposal is not retrieved, nothing is logged,
    the surroundings and the chaincode object are as before. *)
Theorem Invoke_too_few_arguments (stub : ChaincodeStub) (st : State) :
  (length (GetArgs stub) < 2)%nat ->
  BSCC.Invoke InvokedChaincodeName stub st
  = (Return (ArgumentCountError (length (GetArgs stub))), called CallGetArgs st).
Proof.
  intros Hlen. unfold BSCC.Invoke, mbind, M_bind, mret, M_ret, call. simpl.
  destruct (Nat.ltb_spec (length (GetArgs stub)) 2) as [_ | Hge]; [reflexivity | lia].
Qed.

(** C2, as amended. With at least two arguments, a proposal that can
    be retrieved and a name read from it that is not the chaincode's
    own, [Invoke] answers IdentityMismatchError, whatever the function
    name and the other arguments are. *)
Theorem Invoke_identity_mismatch (stub : ChaincodeStub) (st : State)
    (sp : SignedProposal) (name : string) :
  (2 <= length (GetArgs stub))%nat ->
  GetSignedProposal stub = (Some sp, None) ->
  InvokedChaincodeName (ProposalBytes sp) = Ok name ->
  name ≠ BSCC.Name ->
  fst (BSCC.Invoke InvokedChaincodeName stub st) = Return (IdentityMismatchError name).
Proof.
  intros Hlen Hsp Hname Hne. destruct stub as [args gsp]. simpl in *. subst gsp.
  destruct args as [| arg0 [| arg1 args]]; simpl in Hlen; try lia.
  unfold BSCC.Invoke, mbind, M_bind, mret, M_ret, call, index, deref,
    bloccProtoLogger.Infof, logger.
  simpl. rewrite Hname. destruct (decide (name ≠ BSCC.Name)) as [_ | Heq]; [reflexivity | ].
  exfalso. apply Heq, Hne.
Qed.

End Dispatcher.

Lemma Invoke_too_few_arguments_witness :
  (length (GetArgs (Fixture.stubFor "bscc" ["ApproveSensoryReading"])) < 2)%nat
  /\ BSCC.Invoke Fixture.nameOf (Fixture.stubFor "bscc" ["ApproveSensoryReading"]) Fixture.fresh
     = (Return (ArgumentCountError 1), called CallGetArgs Fixture.fresh).
Proof.
  split; [simpl; lia | ].
  apply (Invoke_too_few_arguments Fixture.nameOf
           (Fixture.stubFor "bscc" ["ApproveSensoryReading"]) Fixture.fresh).
  simpl; lia.
Defined.

(** The scenarios of the specification, from the rightful invoker. *)
Example Invoke_CheckForkStatus_no_marker :
  fst (BSCC.Invoke Fixture.nameOf
         (Fixture.stubFor "bscc" ["CheckForkStatus"; "channel-7"]) Fixture.fresh)
  = Return (shim.Success (encoded false)).
Proof. vm_compute. reflexivity. Qed.

Example Invoke_unknown_function :
  fst (BSCC.Invoke Fixture.nameOf (Fixture.stubFor "bscc" ["UnknownFn"; "x"]) Fixture.fresh)
  = Return (shim.Error "Requested function UnknownFn not found.").
Proof. vm_compute. reflexivity. Qed.

Example Invoke_ApproveSensoryReading_echo :
  fst (BSCC.Invoke Fixture.nameOf
         (Fixture.stubFor "bscc" ["ApproveSensoryReading"; "tx-1"]) Fixture.fresh)
  = Return (shim.Success (String.list_byte_of_string "tx-1")).
Proof. vm_compute. reflexivity. Qed.

(** C2, as stated, fails: a one-argument call made for another chaincode
    is answered with ArgumentCountError, not IdentityMismatchError. *)
Lemma Invoke_identity_mismatch_needs_two_arguments :
  let stub := Fixture.stubFor "other" ["CheckForkStatus"] in
  GetSignedProposal stub
  = (Some {| ProposalBytes := String.list_byte_of_string "other"; Signature := [] |}, None)
  /\ Fixture.nameOf (String.list_byte_of_string "other") = Ok "other"
  /\ "other" ≠ BSCC.Name
  /\ fst (BSCC.Invoke Fixture.nameOf stub Fixture.fresh) = Return (ArgumentCountError 1)
  /\ fst (BSCC.Invoke Fixture.nameOf stub Fixture.fresh)
     ≠ Return (IdentityMismatchError "other").
Proof.
  repeat split; try reflexivity; discriminate.
Qed.

Lemma Invoke_identity_mismatch_witness :
  (2 <= length (GetArgs (Fixture.stubFor "other" ["CheckForkStatus"; "channel-7"])))%nat
  /\ "other" ≠ BSCC.Name
  /\ fst (BSCC.Invoke Fixture.nameOf
            (Fixture.stubFor "other" ["CheckForkStatus"; "channel-7"]) Fixture.fresh)
     = Return (IdentityMismatchError "other").
Proof.
  split; [simpl; lia | ]. split; [discriminate | ].
  apply (Invoke_identity_mismatch Fixture.nameOf
           (Fixture.stubFor "other" ["CheckForkStatus"; "channel-7"]) Fixture.fresh
           {| ProposalBytes := String.list_byte_of_string "other"; Signature := [] |} "other").
  - simpl; lia.
  - reflexivity.
  - reflexivity.
  - discriminate.
Defined.

(** ** Fork status oracle *)

Lemma encoded_inj (b1 b2 : bool) : encoded b1 = encoded b2 -> b1 = b2.
Proof. destruct b1, b2; simpl; intros H; first [reflexivity | discriminate H]. Qed.

(** What [CheckForkStatus] answers on a channel with a name: the flag is
    raised unless the lookup of the marker ends in a not-exist error. *)
Lemma CheckForkStatus_eq (channelID : string) (st : State) :
  channelID ≠ "" ->
  BSCC.CheckForkStatus channelID st
  = (Return (shim.Success
               (encoded (negb (os.IsNotExist (os.Stat (world st) (marker channelID)))))),
     called (CallStat (marker channelID)) st).
Proof.
  intros Hne. unfold BSCC.CheckForkStatus.
  destruct (decide (channelID = "")) as [Heq | _]; [contradiction | ].
  unfold mbind, M_bind, sys.Stat, syscall. simpl. fold (marker channelID).
  destruct (os.IsNotExist (os.Stat (world st) (marker channelID))); reflexivity.
Qed.

Lemma Stat_definite (w : World) (channelID : string) :
  os.Stat w (marker channelID) = None
  \/ os.IsNotExist (os.Stat w (marker channelID)) = true ->
  negb (os.IsNotExist (os.Stat w (marker channelID))) = marker_exists w channelID.
Proof.
  unfold os.Stat, marker_exists.
  destruct (stat_fault w !! marker channelID) as [f | ]; simpl.
  - intros [H | H]; discriminate H.
  - intros _. destruct (files w !! marker channelID) as [b | ]; symmetry.
    + apply bool_decide_eq_true_2. eauto.
    + apply bool_decide_eq_false_2. intros [x Hx]. discriminate Hx.
Qed.

(** C3, as amended. On a channel with a name, when the lookup of the
    marker succeeds or ends in a not-exist error, [CheckForkStatus]
    answers with success and its payload is the encoded [true] exactly
    when the marker file exists, the encoded [false] exactly when it
    does not. *)
Theorem CheckForkStatus_marker (channelID : string) (st : State) :
  channelID ≠ "" ->
  os.Stat (world st) (marker channelID) = None
  \/ os.IsNotExist (os.Stat (world st) (marker channelID)) = true ->
  exists payload,
    fst (BSCC.CheckForkStatus channelID st) = Return (shim.Success payload)
    /\ (payload = encoded true <-> marker_exists (world st) channelID = true)
    /\ (payload = encoded false <-> marker_exists (world st) channelID = false).
Proof.
  intros Hne Hstat. rewrite (CheckForkStatus_eq _ _ Hne), (Stat_definite _ _ Hstat). simpl.
  exists (encoded (marker_exists (world st) channelID)). split; [reflexivity | ].
  split; split; intros H; first [apply encoded_inj, H | rewrite H; reflexivity].
Qed.

Lemma CheckForkStatus_marker_witness :
  "channel-7" ≠ ""
  /\ os.IsNotExist (os.Stat (world Fixture.fresh) (marker "channel-7")) = true
  /\ exists payload,
       fst (BSCC.CheckForkStatus "channel-7" Fixture.fresh) = Return (shim.Success payload)
       /\ (payload = encoded true <-> marker_exists (world Fixture.fresh) "channel-7" = true)
       /\ (payload = encoded false <-> marker_exists (world Fixture.fresh) "channel-7" = false).
Proof.
  split; [discriminate | ]. split; [reflexivity | ].
  apply (CheckForkStatus_marker "channel-7" Fixture.fresh); [discriminate | ].
  right. reflexivity.
Defined.

Example CheckForkStatus_empty_channel :
  BSCC.CheckForkStatus "" Fixture.fresh
  = (Return (shim.Error "ChannelID not specified"), Fixture.fresh).
Proof. reflexivity. Qed.

Example CheckForkStatus_marker_present :
  fst (BSCC.CheckForkStatus "channel-7" (set_world Fixture.marked Fixture.fresh))
  = Return (shim.Success (encoded true)).
Proof. vm_compute. reflexivity. Qed.

(** C3, as stated, fails: where the lookup of the marker is refused and
    no marker file exists, the payload is the encoded [true]. *)
Lemma CheckForkStatus_true_without_marker :
  let st := set_world Fixture.guarded Fixture.fresh in
  "channel-7" ≠ ""
  /\ marker_exists (world st) "channel-7" = false
  /\ fst (BSCC.CheckForkStatus "channel-7" st) = Return (shim.Success (encoded true))
  /\ fst (BSCC.CheckForkStatus "channel-7" st)
     ≠ Return (shim.Success (encoded (marker_exists (world st) "channel-7"))).
Proof.
  split; [discriminate | ]. split; [reflexivity | ]. split; [reflexivity | ].
  vm_compute. discriminate.
Qed.

(** C10. On a channel with a name, when the lookup of the marker fails
    with an error that is not a not-exist error, [CheckForkStatus]
    answers with success and the encoded [true]. *)
Theorem CheckForkStatus_other_error (channelID : string) (st : State) (e : error) :
  channelID ≠ "" ->
  os.Stat (world st) (marker channelID) = Some e ->
  os.IsNotExist (Some e) = false ->
  fst (BSCC.CheckForkStatus channelID st) = Return (shim.Success (encoded true)).
Proof.
  intros Hne Hstat Hkind. rewrite (CheckForkStatus_eq _ _ Hne), Hstat, Hkind. reflexivity.
Qed.

Lemma CheckForkStatus_other_error_witness :
  "channel-7" ≠ ""
  /\ os.Stat Fixture.guarded (marker "channel-7")
     = Some (PathError "stat" (marker "channel-7") (Efault EACCES))
  /\ fst (BSCC.CheckForkStatus "channel-7" (set_world Fixture.guarded Fixture.fresh))
     = Return (shim.Success (encoded true)).
Proof.
  split; [discriminate | ]. split; [reflexivity | ].
  apply (CheckForkStatus_other_error "channel-7" (set_world Fixture.guarded Fixture.fresh)
           (PathError "stat" (marker "channel-7") (Efault EACCES)));
    [discriminate | reflexivity | reflexivity].
Defined.

(** ** Orderer resolver *)

Section Resolver.

Variables (channelID : string) (st : State).

Ltac resolve H :=
  unfold BSCC.gatherOrdererInfo, mbind, M_bind, get_self, call; simpl;
  rewrite H; simpl.

Lemma gatherOrdererInfo_state :
  snd (BSCC.gatherOrdererInfo channelID st) = called (CallGetOrdererInfo channelID) st.
Proof.
  unfold BSCC.gatherOrdererInfo, mbind, M_bind, get_self, call; simpl.
  destruct (peer.GetOrdererInfo (peerInstance (self st)) channelID) as [orgs [e | ]];
    simpl; [reflexivity | ].
  destruct orgs as [| org rest]; simpl; [reflexivity | ].
  unfold index. destruct (Addresses org) as [| a addrs]; simpl; [reflexivity | ].
  destruct (RootCerts org) as [| c certs]; reflexivity.
Qed.

Lemma gatherOrdererInfo_lookup_error (orgs : list OrdererOrg) (e : error) :
  peer.GetOrdererInfo (peerInstance (self st)) channelID = (orgs, Some e) ->
  fst (BSCC.gatherOrdererInfo channelID st) = Return (Err e).
Proof. intros H. resolve H. reflexivity. Qed.

Lemma gatherOrdererInfo_empty :
  peer.GetOrdererInfo (peerInstance (self st)) channelID = ([], None) ->
  fst (BSCC.gatherOrdererInfo channelID st) = Return (Err NoOrdererOrgError).
Proof. intros H. resolve H. reflexivity. Qed.

Lemma gatherOrdererInfo_head (org : OrdererOrg) (rest : list OrdererOrg) :
  peer.GetOrdererInfo (peerInstance (self st)) channelID = (org :: rest, None) ->
  fst (BSCC.gatherOrdererInfo channelID st)
  = match Addresses org, RootCerts org with
    | address :: _, rootCert :: _ => Return (Ok (address, rootCert))
    | _, _ => Panic "runtime error: index out of range [0] with length 0"
    end.
Proof.
  intros H. resolve H. unfold index.
  destruct (Addresses org) as [| a addrs]; simpl; [reflexivity | ].
  destruct (RootCerts org) as [| c certs]; reflexivity.
Qed.

End Resolver.

(** C6. When the registry yields a non-empty list of organizations, the
    resolver returns the first address and the first root certificate of
    the first organization; whatever it returns is that pair; and the
    answer is the same wherever the first organization is the same,
    whichever organizations follow it. *)
Theorem gatherOrdererInfo_first_of_first (channelID : string) (st : State)
    (org : OrdererOrg) (rest : list OrdererOrg) :
  peer.GetOrdererInfo (peerInstance (self st)) channelID = (org :: rest, None) ->
  (forall address rootCert,
      Addresses org !! 0%nat = Some address ->
      RootCerts org !! 0%nat = Some rootCert ->
      fst (BSCC.gatherOrdererInfo channelID st) = Return (Ok (address, rootCert)))
  /\ (forall address rootCert,
        fst (BSCC.gatherOrdererInfo channelID st) = Return (Ok (address, rootCert)) ->
        Addresses org !! 0%nat = Some address /\ RootCerts org !! 0%nat = Some rootCert)
  /\ (forall channelID' st' rest',
        peer.GetOrdererInfo (peerInstance (self st')) channelID' = (org :: rest', None) ->
        fst (BSCC.gatherOrdererInfo channelID' st')
        = fst (BSCC.gatherOrdererInfo channelID st)).
Proof.
  intros H. rewrite (gatherOrdererInfo_head _ _ _ _ H). repeat split.
  - intros address rootCert Ha Hc.
    destruct (Addresses org) as [| a addrs]; [discriminate Ha | ].
    destruct (RootCerts org) as [| c certs]; [discriminate Hc | ].
    simpl in Ha, Hc. congruence.
  - destruct (Addresses org) as [| a addrs]; [discriminate | ].
    destruct (RootCerts org) as [| c certs]; [discriminate | ].
    simpl. congruence.
  - destruct (Addresses org) as [| a addrs]; [discriminate | ].
    destruct (RootCerts org) as [| c certs]; [discriminate | ].
    simpl. congruence.
  - intros channelID' st' rest' H'. apply (gatherOrdererInfo_head _ _ _ _ H').
Qed.

Lemma gatherOrdererInfo_first_of_first_witness :
  fst (BSCC.gatherOrdererInfo "channel-7" Fixture.fresh)
  = Return (Ok ("orderer0.example.com:7050", String.list_byte_of_string "CERT-A")).
Proof.
  apply (gatherOrdererInfo_first_of_first "channel-7" Fixture.fresh
           Fixture.org1 [Fixture.org2]); reflexivity.
Defined.

(** C9. When the registry yields a non-empty list whose first
    organization has no address or no root certificate, the resolver
    does not return an error: it indexes out of range.  It returns at
    all exactly when the first organization has an address and a root
    certificate. *)
Theorem gatherOrdererInfo_out_of_range (channelID : string) (st : State)
    (org : OrdererOrg) (rest : list OrdererOrg) :
  peer.GetOrdererInfo (peerInstance (self st)) channelID = (org :: rest, None) ->
  (Addresses org = [] \/ RootCerts org = [] ->
   fst (BSCC.gatherOrdererInfo channelID st)
   = Panic "runtime error: index out of range [0] with length 0")
  /\ ((exists r, fst (BSCC.gatherOrdererInfo channelID st) = Return r)
      <-> Addresses org ≠ [] /\ RootCerts org ≠ []).
Proof.
  intros H. rewrite (gatherOrdererInfo_head _ _ _ _ H).
  destruct (Addresses org) as [| a addrs], (RootCerts org) as [| c certs];
    (split; [ intros [Hnil | Hnil]; first [reflexivity | discriminate Hnil] | ]);
    (split; [ intros [r Hr]; first [discriminate Hr | split; discriminate]
            | intros [Ha Hc]; first [contradiction | eexists; reflexivity] ]).
Qed.

Lemma gatherOrdererInfo_out_of_range_witness :
  fst (BSCC.gatherOrdererInfo "bare" Fixture.fresh)
  = Panic "runtime error: index out of range [0] with length 0".
Proof.
  apply (gatherOrdererInfo_out_of_range "bare" Fixture.fresh Fixture.noAddress []);
    [reflexivity | left; reflexivity].
Defined.

(** ** Event pipeline *)

(** Running the monad, one step at a time. *)

Lemma bind_run {A B} (m : M A) (f : A -> M B) (st : State) :
  (m ≫= f) st
  = match m st with
    | (Return a, st') => f a st'
    | (Panic msg, st') => (Panic msg, st')
    end.
Proof. reflexivity. Qed.

Lemma logger_run (l : Level) (msg : string) (st : State) :
  logger l msg st = (Return (), logged l msg st).
Proof. reflexivity. Qed.

Lemma call_run (c : Call) (st : State) : call c st = (Return (), called c st).
Proof. reflexivity. Qed.

Lemma syscall_run {A} (c : Call) (f : World -> A * World) (st : State) :
  syscall c f st = (Return (fst (f (world st))), set_world (snd (f (world st))) (called c st)).
Proof. unfold syscall. destruct (f (world st)); reflexivity. Qed.

Lemma TempFile_loop_ok (fuel : nat) (dir pattern : string) (w w' : World) (f : os.File) :
  ioutil.TempFile_loop fuel dir pattern w = (Ok f, w') ->
  files w !! os.Name f = None
  /\ files w' = <[os.Name f := []]> (files w)
  /\ write_fault w' = write_fault w
  /\ close_fault w' = close_fault w.
Proof.
  revert w. induction fuel as [| fuel IH]; intros w; simpl; [discriminate | ].
  unfold os.OpenFile_excl. simpl.
  destruct (open_fault w) as [ft | ]; simpl; [discriminate | ].
  destruct (files w !! filepath.Join dir (pattern +:+ pretty (tmp_seed w)))
    as [b | ] eqn:Hf; simpl.
  - destruct fuel as [| fuel']; [discriminate | ].
    intros H. apply IH in H. exact H.
  - intros H. injection H as <- <-. simpl. auto.
Qed.

Lemma createTempFile_eq (cert : bytes) (st : State) :
  BSCC.createTempFile cert st
  = match ioutil.TempFile (world st) "" "rootCertFile" with
    | (Err e, w1) => (Return (Err e), set_world w1 (called (CallTempFile "" "rootCertFile") st))
    | (Ok f, w1) =>
        match os.Write w1 f cert with
        | (Some e, w2) =>
            (Return (Err e),
             set_world w2 (called (CallWrite (os.Name f))
                             (called (CallTempFile "" "rootCertFile") st)))
        | (None, w2) =>
            match os.Close w2 f with
            | (Some e, w3) =>
                (Return (Err e),
                 set_world w3 (called (CallClose (os.Name f))
                                 (called (CallWrite (os.Name f))
                                    (called (CallTempFile "" "rootCertFile") st))))
            | (None, w3) =>
                (Return (Ok (os.Name f)),
                 set_world w3 (called (CallClose (os.Name f))
                                 (called (CallWrite (os.Name f))
                                    (called (CallTempFile "" "rootCertFile") st))))
            end
        end
    end.
Proof.
  unfold BSCC.createTempFile, mbind, M_bind, mret, M_ret, sys.TempFile, sys.Write, sys.Close, syscall.
  simpl.
  destruct (ioutil.TempFile (world st) "" "rootCertFile") as [[f | e] w1]; simpl; [ | reflexivity].
  destruct (os.Write w1 f cert) as [[e | ] w2]; simpl; [reflexivity | ].
  destruct (os.Close w2 f) as [[e | ] w3]; reflexivity.
Qed.

Lemma stage_ok (w w1 w2 w3 : World) (f : os.File) (cert : bytes) :
  ioutil.TempFile w "" "rootCertFile" = (Ok f, w1) ->
  os.Write w1 f cert = (None, w2) ->
  os.Close w2 f = (None, w3) ->
  files w !! os.Name f = None /\ files w3 = <[os.Name f := cert]> (files w).
Proof.
  unfold ioutil.TempFile, os.Write, os.Close. intros Ht Hw Hc.
  apply TempFile_loop_ok in Ht as (Hnew & Hfiles & _ & _).
  destruct (write_fault w1); [discriminate Hw | ]. injection Hw as <-.
  destruct (close_fault _); [discriminate Hc | ]. injection Hc as <-.
  split; [exact Hnew | ]. simpl. rewrite Hfiles, lookup_insert_eq. simpl.
  apply insert_insert_eq.
Qed.

Lemma createTempFile_world (cert : bytes) (st st' : State) :
  world st' = world st ->
  fst (BSCC.createTempFile cert st') = fst (BSCC.createTempFile cert st)
  /\ world (snd (BSCC.createTempFile cert st')) = world (snd (BSCC.createTempFile cert st)).
Proof.
  intros Hw. rewrite !createTempFile_eq, Hw.
  destruct (ioutil.TempFile (world st) "" "rootCertFile") as [[f | e] w1]; simpl; [ | done].
  destruct (os.Write w1 f cert) as [[e | ] w2]; simpl; [done | ].
  destruct (os.Close w2 f) as [[e | ] w3]; done.
Qed.

Lemma createTempFile_ok (cert : bytes) (st : State) (p : string) :
  fst (BSCC.createTempFile cert st) = Return (Ok p) ->
  exists w',
    BSCC.createTempFile cert st
    = (Return (Ok p),
       set_world w' (called (CallClose p) (called (CallWrite p)
                       (called (CallTempFile "" "rootCertFile") st))))
    /\ files (world st) !! p = None
    /\ files w' = <[p := cert]> (files (world st)).
Proof.
  rewrite createTempFile_eq.
  destruct (ioutil.TempFile (world st) "" "rootCertFile") as [[f | e] w1] eqn:Ht; simpl;
    [ | discriminate].
  destruct (os.Write w1 f cert) as [[e | ] w2] eqn:Hw; simpl; [discriminate | ].
  destruct (os.Close w2 f) as [[e | ] w3] eqn:Hc; simpl; [discriminate | ].
  intros [= <-]. exists w3. split; [reflexivity | ].
  exact (stage_ok _ _ _ _ _ _ Ht Hw Hc).
Qed.

Lemma removeTempFile_eq (p : string) (st : State) :
  BSCC.removeTempFile p st
  = match remove_fault (world st) with
    | Some f =>
        (Return (),
         logged ERROR
           ("Failed to remove temp file: " +:+ Error (PathError "remove" p (Efault f)))
           (called (CallRemove p) st))
    | None =>
        match files (world st) !! p with
        | Some _ =>
            (Return (), set_world (set_files (delete p (files (world st))) (world st))
                          (called (CallRemove p) st))
        | None =>
            (Return (),
             logged ERROR
               ("Failed to remove temp file: " +:+ Error (PathError "remove" p ENOENT))
               (called (CallRemove p) st))
        end
    end.
Proof.
  unfold BSCC.removeTempFile, mbind, M_bind, sys.Remove, syscall, os.Remove. simpl.
  destruct (remove_fault (world st)); [reflexivity | ].
  destruct (files (world st) !! p); reflexivity.
Qed.

Lemma removeTempFile_files (p : string) (st : State) :
  fst (BSCC.removeTempFile p st) = Return ()
  /\ files (world (snd (BSCC.removeTempFile p st)))
     = match remove_fault (world st) with
       | Some _ => files (world st)
       | None => delete p (files (world st))
       end
  /\ calls (snd (BSCC.removeTempFile p st)) = calls st ++ [CallRemove p]
  /\ self (snd (BSCC.removeTempFile p st)) = self st.
Proof.
  rewrite removeTempFile_eq. destruct (remove_fault (world st)); [simpl; auto | ].
  destruct (files (world st) !! p) eqn:Hp; simpl; repeat split.
  symmetry. apply delete_id. exact Hp.
Qed.

Lemma gatherOrdererInfo_self (channelID : string) (st st' : State) :
  self st' = self st ->
  fst (BSCC.gatherOrdererInfo channelID st') = fst (BSCC.gatherOrdererInfo channelID st).
Proof.
  intros Hs. unfold BSCC.gatherOrdererInfo, mbind, M_bind, get_self, call; simpl. rewrite Hs.
  destruct (peer.GetOrdererInfo (peerInstance (self st)) channelID) as [orgs [e | ]];
    simpl; [reflexivity | ].
  destruct orgs as [| org rest]; simpl; [reflexivity | ].
  unfold index. destruct (Addresses org) as [| a addrs]; simpl; [reflexivity | ].
  destruct (RootCerts org) as [| c certs]; reflexivity.
Qed.

Section Pipeline.
Variable ApproveForThisPeerCmd : BCCSP -> list string -> World -> option error * World.

Lemma processEvent_resolved (e : Event) (st : State) :
  BSCC.processEvent ApproveForThisPeerCmd e st
  = let st1 := called (CallGetOrdererInfo (ChannelID e)) (received e st) in
    match fst (BSCC.gatherOrdererInfo (ChannelID e) st) with
    | Panic msg => (Panic msg, st1)
    | Return (Err err) =>
        (Return (), logged ERROR ("Failed to gather orderer info: " +:+ Error err) st1)
    | Return (Ok (address, rootCertFile)) =>
        match BSCC.createTempFile rootCertFile st1 with
        | (Panic msg, st2) => (Panic msg, st2)
        | (Return (Err err), st2) =>
            (Return (), logged ERROR ("Failed to create temp file: " +:+ Error err) st2)
        | (Return (Ok p), st2) =>
            let args := approvalArgs address p e (config (self st2)) in
            let r := ApproveForThisPeerCmd (CryptoProvider (config (self st2))) args
                       (world st2) in
            let st3 := set_world (snd r) (called (CallExecute args) st2) in
            let st4 := match fst r with
                       | Some err =>
                           logged ERROR
                             ("Failed to approve sensory reading: " +:+ Error err) st3
                       | None => st3
                       end in
            (Return (), snd (BSCC.removeTempFile p st4))
        end
    end.
Proof.
  rewrite <- (gatherOrdererInfo_self (ChannelID e) st (received e st) eq_refl).
  unfold BSCC.processEvent, bloccProtoLogger.Info.
  rewrite bind_run, logger_run. change (logged INFO _ st) with (received e st).
  rewrite bind_run.
  pose proof (gatherOrdererInfo_state (ChannelID e) (received e st)) as Hst.
  destruct (BSCC.gatherOrdererInfo (ChannelID e) (received e st)) as [o s1].
  simpl in Hst. subst s1. simpl fst. cbv zeta.
  destruct o as [[[address cert] | err] | msg]; [ | reflexivity | reflexivity].
  rewrite bind_run.
  destruct (BSCC.createTempFile cert _) as [[[p | err] | msg] st2];
    [ | reflexivity | reflexivity].
  unfold defer, BSCC.approveSensoryReading.
  rewrite !bind_run. unfold get_self. rewrite bind_run, syscall_run.
  fold (approvalArgs address p e (config (self st2))).
  unfold mret, M_ret.
  pose proof (removeTempFile_files p) as Hrm.
  destruct (fst (ApproveForThisPeerCmd _ _ _)) as [err | ].
  - unfold bloccProtoLogger.Errorf. rewrite logger_run.
    specialize (Hrm (logged ERROR ("Failed to approve sensory reading: " +:+ Error err)
      (set_world
        (snd (ApproveForThisPeerCmd (CryptoProvider (config (self st2)))
                (approvalArgs address p e (config (self st2))) (world st2)))
        (called (CallExecute (approvalArgs address p e (config (self st2)))) st2)))).
    destruct (BSCC.removeTempFile p _) as [[[] | msg] st5]; simpl in Hrm; [reflexivity | ].
    destruct Hrm as [Hrm _]. discriminate Hrm.
  - specialize (Hrm (set_world
        (snd (ApproveForThisPeerCmd (CryptoProvider (config (self st2)))
                (approvalArgs address p e (config (self st2))) (world st2)))
        (called (CallExecute (approvalArgs address p e (config (self st2)))) st2))).
    destruct (BSCC.removeTempFile p _) as [[[] | msg] st5]; simpl in Hrm; [reflexivity | ].
    destruct Hrm as [Hrm _]. discriminate Hrm.
Qed.

(** C5. When the registry yields no organization for the event's
    channel, the resolver returns NoOrdererOrgError and the event is
    dropped: [processEvent] logs the failure and returns, having made
    the registry lookup and no other call (no scratch file is asked
    for, nothing is submitted), and the surroundings are as before. *)
Theorem processEvent_no_orderer_org (e : Event) (st : State) :
  peer.GetOrdererInfo (peerInstance (self st)) (ChannelID e) = ([], None) ->
  fst (BSCC.gatherOrdererInfo (ChannelID e) st) = Return (Err NoOrdererOrgError)
  /\ fst (BSCC.processEvent ApproveForThisPeerCmd e st) = Return ()
  /\ calls (snd (BSCC.processEvent ApproveForThisPeerCmd e st))
     = calls st ++ [CallGetOrdererInfo (ChannelID e)]
  /\ world (snd (BSCC.processEvent ApproveForThisPeerCmd e st)) = world st
  /\ log (snd (BSCC.processEvent ApproveForThisPeerCmd e st))
     = log st ++ [(INFO, "BLOCC - Received approval event: " +:+ Event_String e);
                  (ERROR, "Failed to gather orderer info: No orderer organization found")].
Proof.
  intros H. pose proof (gatherOrdererInfo_empty _ _ H) as Hg.
  split; [exact Hg | ]. rewrite processEvent_resolved, Hg. simpl.
  repeat split. rewrite <- app_assoc. reflexivity.
Qed.

End Pipeline.

Lemma processEvent_no_orderer_org_witness :
  let e := {| ChannelID := "void"; SensoryTxID := "tx-9" |} in
  calls (snd (BSCC.processEvent Fixture.approveOk e Fixture.fresh))
  = calls Fixture.fresh ++ [CallGetOrdererInfo "void"]
  /\ world (snd (BSCC.processEvent Fixture.approveOk e Fixture.fresh)) = world Fixture.fresh.
Proof.
  intros e.
  destruct (processEvent_no_orderer_org Fixture.approveOk e Fixture.fresh eq_refl)
    as (_ & _ & Hcalls & Hworld & _).
  split; [exact Hcalls | exact Hworld].
Defined.

(** ** Scoped cleanup of the staged certificate *)

Lemma removals_app (cs1 cs2 : list Call) :
  removals (cs1 ++ cs2) = removals cs1 ++ removals cs2.
Proof.
  induction cs1 as [| c cs1 IH]; simpl; [reflexivity | ].
  destruct c; simpl; rewrite IH; reflexivity.
Qed.

Section Cleanup.

Variable ApproveForThisPeerCmd : BCCSP -> list string -> World -> option error * World.

(** C4, as amended. When the resolver and the staging succeed for an
    event, the staged file [p] is a new file holding the certificate;
    the approval command runs on it; then, whatever the command
    returned, the removal of [p] is attempted: the event's calls end
    with the single [os.Remove] of the pipeline, on [p], and every
    other path is as the approval command left it.  When the removal is
    not refused [p] is gone (and the files are those from before the
    event if the command left them alone); when it is refused the
    failure is logged and the files stay as the command left them. *)
Theorem processEvent_removes_temp_file (e : Event) (st : State)
    (address : string) (rootCertFile : bytes) (p : string) :
  fst (BSCC.gatherOrdererInfo (ChannelID e) st) = Return (Ok (address, rootCertFile)) ->
  fst (BSCC.createTempFile rootCertFile st) = Return (Ok p) ->
  let final := snd (BSCC.processEvent ApproveForThisPeerCmd e st) in
  let args := approvalArgs address p e (config (self st)) in
  let staged := world (snd (BSCC.createTempFile rootCertFile st)) in
  exists (err : option error) (approved : World),
    files (world st) !! p = None
    /\ files staged = <[p := rootCertFile]> (files (world st))
    /\ ApproveForThisPeerCmd (CryptoProvider (config (self st))) args staged
       = (err, approved)
    /\ fst (BSCC.processEvent ApproveForThisPeerCmd e st) = Return ()
    /\ calls final
       = calls st ++ [CallGetOrdererInfo (ChannelID e); CallTempFile "" "rootCertFile";
                      CallWrite p; CallClose p; CallExecute args; CallRemove p]
    /\ removals (calls final) = removals (calls st) ++ [p]
    /\ (forall q, q ≠ p -> files (world final) !! q = files approved !! q)
    /\ (remove_fault approved = None ->
        files (world final) !! p = None
        /\ (files approved = files staged -> files (world final) = files (world st)))
    /\ (forall f, remove_fault approved = Some f ->
        files (world final) = files approved
        /\ last (log final)
           = Some (ERROR, "Failed to remove temp file: "
                            +:+ Error (PathError "remove" p (Efault f)))).
Proof.
  intros Hg Hc final args staged.
  set (st1 := called (CallGetOrdererInfo (ChannelID e)) (received e st)).
  destruct (createTempFile_world rootCertFile st st1 eq_refl) as [Hfst Hsame].
  rewrite Hc in Hfst. fold staged in Hsame.
  destruct (createTempFile_ok rootCertFile st1 p Hfst) as (staged' & Heq & Hnew & Hfiles).
  rewrite Heq in Hsame. simpl in Hsame. subst staged'.
  destruct (ApproveForThisPeerCmd (CryptoProvider (config (self st))) args staged)
    as [err approved] eqn:Happ.
  exists err, approved.
  split; [exact Hnew | ]. split; [exact Hfiles | ].
  split; [first [exact Happ | reflexivity] | ].
  set (st3 := set_world approved
                (called (CallExecute args)
                   (set_world staged
                      (called (CallClose p) (called (CallWrite p)
                         (called (CallTempFile "" "rootCertFile") st1)))))).
  assert (Hfinal : BSCC.processEvent ApproveForThisPeerCmd e st
                   = (Return (),
                      snd (BSCC.removeTempFile p
                             match err with
                             | Some err' =>
                                 logged ERROR
                                   ("Failed to approve sensory reading: " +:+ Error err')
                                   st3
                             | None => st3
                             end))).
  { rewrite processEvent_resolved, Hg. cbv zeta. fold st1. rewrite Heq. simpl self.
    simpl world. fold args. rewrite Happ. simpl. destruct err; reflexivity. }
  subst final. rewrite Hfinal. simpl fst. simpl snd.
  match goal with |- context [BSCC.removeTempFile p ?s] =>
    destruct (removeTempFile_files p s) as (_ & Hrf & Hrc & _);
    pose proof (removeTempFile_eq p s) as Hre;
    assert (Hw : world s = approved) by (destruct err; reflexivity);
    assert (Hcs : calls s = calls st ++ [CallGetOrdererInfo (ChannelID e);
                                         CallTempFile "" "rootCertFile";
                                         CallWrite p; CallClose p; CallExecute args])
      by (destruct err; simpl; rewrite <- !app_assoc; reflexivity)
  end.
  rewrite Hw in Hrf, Hre. rewrite Hrc, Hrf, Hcs. clear Hrc Hrf Hcs Hfinal.
  split; [reflexivity | ]. split; [rewrite <- app_assoc; reflexivity | ].
  split; [rewrite <- app_assoc, removals_app; reflexivity | ].
  split.
  { intros q Hq. destruct (remove_fault approved); [reflexivity | ].
    apply lookup_delete_ne. congruence. }
  split.
  - intros ->. split; [apply lookup_delete_eq | ].
    intros Hsame. rewrite Hsame, Hfiles. apply delete_insert_id. exact Hnew.
  - intros f Hf. rewrite Hf in Hre |- *. split; [reflexivity | ].
    rewrite Hre. simpl. apply last_snoc.
Qed.

End Cleanup.

Lemma processEvent_removes_temp_file_witness :
  let final := snd (BSCC.processEvent Fixture.approveFails Fixture.event7 Fixture.fresh) in
  fst (BSCC.gatherOrdererInfo "channel-7" Fixture.fresh)
  = Return (Ok ("orderer0.example.com:7050", String.list_byte_of_string "CERT-A"))
  /\ fst (BSCC.createTempFile (String.list_byte_of_string "CERT-A") Fixture.fresh)
     = Return (Ok "/tmp/rootCertFile0")
  /\ removals (calls final) = ["/tmp/rootCertFile0"]
  /\ files (world final) = files (world Fixture.fresh).
Proof.
  intros final.
  assert (Hg : fst (BSCC.gatherOrdererInfo (ChannelID Fixture.event7) Fixture.fresh)
               = Return (Ok ("orderer0.example.com:7050",
                             String.list_byte_of_string "CERT-A")))
    by reflexivity.
  assert (Hc : fst (BSCC.createTempFile (String.list_byte_of_string "CERT-A") Fixture.fresh)
               = Return (Ok "/tmp/rootCertFile0"))
    by (vm_compute; reflexivity).
  split; [exact Hg | ]. split; [exact Hc | ].
  destruct (processEvent_removes_temp_file Fixture.approveFails Fixture.event7 Fixture.fresh
              _ _ _ Hg Hc)
    as (err & approved & _ & _ & Happ & _ & _ & Hrm & _ & Hgone & _).
  split; [exact Hrm | ].
  unfold Fixture.approveFails in Happ. injection Happ as _ <-.
  apply Hgone; [vm_compute | ]; reflexivity.
Defined.

(** C4, as stated, fails: where the removal is refused, an event that
    resolves and stages leaves its scratch file behind; the one
    [os.Remove] of the pipeline was made and did not remove it. *)
Lemma processEvent_refused_removal_keeps_temp_file :
  let st := set_world Fixture.stuck Fixture.fresh in
  let final := snd (BSCC.processEvent Fixture.approveFails Fixture.event7 st) in
  fst (BSCC.gatherOrdererInfo "channel-7" st)
  = Return (Ok ("orderer0.example.com:7050", String.list_byte_of_string "CERT-A"))
  /\ fst (BSCC.createTempFile (String.list_byte_of_string "CERT-A") st)
     = Return (Ok "/tmp/rootCertFile0")
  /\ files (world st) !! "/tmp/rootCertFile0" = None
  /\ removals (calls final) = ["/tmp/rootCertFile0"]
  /\ files (world final) !! "/tmp/rootCertFile0"
     = Some (String.list_byte_of_string "CERT-A").
Proof. vm_compute. repeat split. Qed.

(** A staging that fails at the write leaves the pipeline before the
    submission; the file it had created stays behind. *)
Example processEvent_write_fails :
  let final := snd (BSCC.processEvent Fixture.approveOk Fixture.event7
                      (set_world Fixture.diskFull Fixture.fresh)) in
  calls final = [CallGetOrdererInfo "channel-7"; CallTempFile "" "rootCertFile";
                 CallWrite "/tmp/rootCertFile0"]
  /\ files (world final) !! "/tmp/rootCertFile0" = Some [].
Proof. vm_compute. split; reflexivity. Qed.

(** ** The consumer *)

Lemma submissions_app (cs1 cs2 : list Call) :
  submissions (cs1 ++ cs2) = submissions cs1 ++ submissions cs2.
Proof.
  induction cs1 as [| c cs1 IH]; simpl; [reflexivity | ].
  destruct c; simpl; rewrite IH; reflexivity.
Qed.

Lemma removeTempFile_consumers (p : string) (st : State) :
  consumers (snd (BSCC.removeTempFile p st)) = consumers st.
Proof.
  rewrite removeTempFile_eq. destruct (remove_fault (world st)); [reflexivity | ].
  destruct (files (world st) !! p); reflexivity.
Qed.

Lemma Init_consumers (stub : ChaincodeStub) (st : State) :
  consumers (snd (BSCC.Init stub st)) = S (consumers st).
Proof.
  unfold BSCC.Init, mbind, M_bind, bloccProtoLogger.Info, bloccProtoLogger.Error, logger,
    go_consumer, sys.LookupEnv, syscall, os.LookupEnv, get_self, set_config. simpl.
  destruct (environ (world st) !! "CORE_PEER_ADDRESS"); simpl; [ | reflexivity].
  destruct (environ (world st) !! "CORE_PEER_TLS_ROOTCERT_FILE"); reflexivity.
Qed.

(** Without one of the two variables [Init] answers with an error and
    leaves the configuration as it was. *)
Lemma Init_missing_env (stub : ChaincodeStub) (st : State) :
  environ (world st) !! "CORE_PEER_ADDRESS" = None
  \/ environ (world st) !! "CORE_PEER_TLS_ROOTCERT_FILE" = None ->
  (exists msg, fst (BSCC.Init stub st) = Return (shim.Error msg))
  /\ config (self (snd (BSCC.Init stub st))) = config (self st).
Proof.
  unfold BSCC.Init, mbind, M_bind, bloccProtoLogger.Info, bloccProtoLogger.Error, logger,
    go_consumer, sys.LookupEnv, syscall, os.LookupEnv, get_self, set_config. simpl.
  intros H.
  destruct (environ (world st) !! "CORE_PEER_ADDRESS"); simpl; [ | eauto].
  destruct (environ (world st) !! "CORE_PEER_TLS_ROOTCERT_FILE"); simpl; [ | eauto].
  destruct H as [H | H]; discriminate H.
Qed.

(** With both variables [Init] succeeds and stores the configuration. *)
Lemma Init_populates (stub : ChaincodeStub) (st : State) (peerAddress tlsCertFile : string) :
  environ (world st) !! "CORE_PEER_ADDRESS" = Some peerAddress ->
  environ (world st) !! "CORE_PEER_TLS_ROOTCERT_FILE" = Some tlsCertFile ->
  fst (BSCC.Init stub st) = Return (shim.Success [])
  /\ config (self (snd (BSCC.Init stub st)))
     = {| PeerAddress := peerAddress; TLSCertFile := tlsCertFile;
          CryptoProvider := peer.CryptoProvider (peerInstance (self st)) |}.
Proof.
  unfold BSCC.Init, mbind, M_bind, bloccProtoLogger.Info, bloccProtoLogger.Error, logger,
    go_consumer, sys.LookupEnv, syscall, os.LookupEnv, get_self, set_config. simpl.
  intros H1 H2. rewrite H1. simpl. rewrite H2. simpl. split; reflexivity.
Qed.

Section Consumer.

Variable ApproveForThisPeerCmd : BCCSP -> list string -> World -> option error * World.

(** One event adds one pipeline to the calls, and starts no consumer. *)
Lemma processEvent_block (e : Event) (st : State) :
  exists block,
    calls (snd (BSCC.processEvent ApproveForThisPeerCmd e st)) = calls st ++ block
    /\ pipeline e block
    /\ consumers (snd (BSCC.processEvent ApproveForThisPeerCmd e st)) = consumers st.
Proof.
  rewrite processEvent_resolved. cbv zeta.
  destruct (fst (BSCC.gatherOrdererInfo (ChannelID e) st)) as [[[address cert] | err] | msg];
    [ | eexists; split; [reflexivity | split; [constructor | reflexivity]] ..].
  rewrite createTempFile_eq.
  destruct (ioutil.TempFile _ _ _) as [[f | err] w1]; simpl.
  2: { eexists. split; [rewrite <- app_assoc; reflexivity | ].
       split; [constructor | reflexivity]. }
  destruct (os.Write w1 f cert) as [[err | ] w2]; simpl.
  { eexists. split; [rewrite <- !app_assoc; reflexivity | ].
    split; [constructor | reflexivity]. }
  destruct (os.Close w2 f) as [[err | ] w3]; simpl.
  { eexists. split; [rewrite <- !app_assoc; reflexivity | ].
    split; [constructor | reflexivity]. }
  match goal with |- context [BSCC.removeTempFile ?p ?s] =>
    destruct (removeTempFile_files p s) as (_ & _ & Hrc & _);
    rewrite Hrc, (removeTempFile_consumers p s)
  end.
  eexists. split.
  - destruct (fst (ApproveForThisPeerCmd _ _ _)); simpl; rewrite <- !app_assoc; reflexivity.
  - split; [apply pipeline_submitted | ].
    destruct (fst (ApproveForThisPeerCmd _ _ _)); reflexivity.
Qed.

End Consumer.

Lemma submissions_of_pipelines (es : list Event) (blocks : list (list Call)) :
  Forall2 pipeline es blocks ->
  exists es', sublist es' es /\ Forall2 submission_of es' (submissions (concat blocks)).
Proof.
  induction 1 as [| e block es blocks Hp _ (es' & Hsub & Hall)]; simpl.
  - exists []. split; constructor.
  - rewrite submissions_app. destruct Hp; simpl;
      try (exists es'; split; [apply sublist_cons, Hsub | exact Hall]).
    exists (e :: es'). split; [apply sublist_skip, Hsub | ].
    constructor; [split; reflexivity | exact Hall].
Qed.

(** ** Initialization and the consumer *)

(** C1 does not hold of the code.  [Init] starts the consumer before it
    looks at the environment: on a peer without CORE_PEER_ADDRESS the
    host's [Init] is answered with an error, the configuration is never
    stored, and an event published afterwards is still processed and
    submitted, with an empty peer address, TLS certificate path and no
    crypto provider. *)
Theorem event_processed_after_failed_Init :
  exists n : Node,
    run Fixture.approveOk
      [HostInit (Fixture.stubFor "bscc" []); Publish Fixture.event7; Deliver]
      (boot Fixture.emptyWorld Fixture.thePeer) = Some n
    /\ responses n = [shim.Error "CORE_PEER_ADDRESS is not set"]
    /\ config (self (state n))
       = {| PeerAddress := ""; TLSCertFile := ""; CryptoProvider := None |}
    /\ submissions (calls (state n))
       = [ [ "--ordererAddress=orderer0.example.com:7050";
             "--rootCertFilePath=/tmp/rootCertFile0";
             "--channelID=channel-7";
             "--txID=tx-1";
             "--peerAddress=";
             "--tlsRootCertFile=" ] ].
Proof.
  eexists. split; [vm_compute; reflexivity | ].
  repeat split.
Qed.

(** * Further properties *)

(** ** More on the dispatcher *)

Lemma CheckForkStatus_frame (channelID : string) (st : State) :
  (exists r, fst (BSCC.CheckForkStatus channelID st) = Return r)
  /\ world (snd (BSCC.CheckForkStatus channelID st)) = world st
  /\ self (snd (BSCC.CheckForkStatus channelID st)) = self st
  /\ consumers (snd (BSCC.CheckForkStatus channelID st)) = consumers st
  /\ log (snd (BSCC.CheckForkStatus channelID st)) = log st.
Proof.
  destruct (decide (channelID = "")) as [-> | Hne].
  - simpl. eauto 10.
  - rewrite (CheckForkStatus_eq _ _ Hne). simpl. eauto 10.
Qed.

Section Routes.

Variable InvokedChaincodeName : bytes -> result string.

Lemma Invoke_run (stub : ChaincodeStub) (st : State) (arg0 arg1 : bytes) (rest : list bytes) :
  GetArgs stub = arg0 :: arg1 :: rest ->
  BSCC.Invoke InvokedChaincodeName stub st
  = let fname := String.string_of_list_byte arg0 in
    let st2 := called CallGetSignedProposal
                 (logged INFO ("Invoke function: " +:+ fname) (called CallGetArgs st)) in
    match GetSignedProposal stub with
    | (_, Some e) =>
        (Return (shim.Error ("Failed getting signed proposal from stub: [" +:+ Error e +:+ "]")),
         st2)
    | (None, None) =>
        (Panic "runtime error: invalid memory address or nil pointer dereference", st2)
    | (Some sp, None) =>
        match InvokedChaincodeName (ProposalBytes sp) with
        | Err e =>
            (Return (shim.Error ("Failed to identify the called chaincode: " +:+ Error e)), st2)
        | Ok name =>
            if decide (name ≠ BSCC.Name) then (Return (IdentityMismatchError name), st2)
            else if decide (fname = const.approveSensoryReading) then
              (Return (shim.Success arg1),
               logged INFO ("ApproveSensoryReading for: " +:+ String.string_of_list_byte arg1)
                 st2)
            else if decide (fname = const.simulateForkAttempt) then
              (Return (shim.Success []), logged WARNING "Adding a fork block!" st2)
            else if decide (fname = const.checkForkStatus) then
              BSCC.CheckForkStatus (String.string_of_list_byte arg1)
                (logged INFO "Checking fork status" st2)
            else
              (Return (shim.Error ("Requested function " +:+ fname +:+ " not found.")), st2)
        end
    end.
Proof.
  intros Hargs. unfold BSCC.Invoke. rewrite Hargs.
  unfold deref, panic, index, mbind, M_bind, mret, M_ret, call, bloccProtoLogger.Infof,
    bloccProtoLogger.Warningf, logger.
  simpl.
  destruct (GetSignedProposal stub) as [[sp | ] [e | ]]; [reflexivity | | reflexivity ..].
  destruct (InvokedChaincodeName (ProposalBytes sp)) as [name | e]; [ | reflexivity].
  destruct (decide (name ≠ BSCC.Name)); [reflexivity | ].
  destruct (decide (_ = const.approveSensoryReading)); [reflexivity | ].
  destruct (decide (_ = const.simulateForkAttempt)); [reflexivity | ].
  destruct (decide (_ = const.checkForkStatus)); reflexivity.
Qed.

Lemma Invoke_short_run (stub : ChaincodeStub) (st : State) :
  (length (GetArgs stub) < 2)%nat ->
  BSCC.Invoke InvokedChaincodeName stub st
  = (Return (ArgumentCountError (length (GetArgs stub))), called CallGetArgs st).
Proof.
  intros Hlen. unfold BSCC.Invoke, mbind, M_bind, mret, M_ret, call. simpl.
  destruct (Nat.ltb_spec (length (GetArgs stub)) 2) as [_ | Hge]; [reflexivity | lia].
Qed.

Lemma two_arguments (stub : ChaincodeStub) :
  (2 <= length (GetArgs stub))%nat ->
  exists arg0 arg1 rest, GetArgs stub = arg0 :: arg1 :: rest.
Proof.
  destruct (GetArgs stub) as [| arg0 [| arg1 rest]]; simpl; intros H; try lia. eauto.
Qed.

Lemma outcome_cases {A} (o : outcome A) (cond : Prop) :
  match o with
  | Return _ => ~ cond
  | Panic _ => cond
  end ->
  ((exists msg, o = Panic msg) <-> cond) /\ ((exists r, o = Return r) <-> ~ cond).
Proof.
  destruct o as [a | msg]; intros H; (split; split); eauto.
  - intros [m Hm]. discriminate Hm.
  - intros Hc. contradiction.
  - intros [r Hr]. discriminate Hr.
  - intros Hn. contradiction.
Qed.

(** X1. [Invoke] only observes: the surroundings, the chaincode
    object and the number of consumers are the same afterwards,
    whatever it answers.  It panics in exactly one case, a call with
    two arguments or more on a stub that hands back a nil proposal
    together with a nil error, which it dereferences; in every other
    case it returns a response (the two arguments it indexes are behind
    the length check). *)
Theorem Invoke_observes_and_panics_iff (stub : ChaincodeStub) (st : State) :
  ((exists msg, fst (BSCC.Invoke InvokedChaincodeName stub st) = Panic msg)
   <-> (2 <= length (GetArgs stub))%nat /\ GetSignedProposal stub = (None, None))
  /\ ((exists r, fst (BSCC.Invoke InvokedChaincodeName stub st) = Return r)
      <-> ~ ((2 <= length (GetArgs stub))%nat /\ GetSignedProposal stub = (None, None)))
  /\ world (snd (BSCC.Invoke InvokedChaincodeName stub st)) = world st
  /\ self (snd (BSCC.Invoke InvokedChaincodeName stub st)) = self st
  /\ consumers (snd (BSCC.Invoke InvokedChaincodeName stub st)) = consumers st.
Proof.
  set (nil_answer := (2 <= length (GetArgs stub))%nat
                     /\ GetSignedProposal stub = (None, None)).
  enough (H : match fst (BSCC.Invoke InvokedChaincodeName stub st) with
              | Return _ => ~ nil_answer
              | Panic _ => nil_answer
              end
              /\ world (snd (BSCC.Invoke InvokedChaincodeName stub st)) = world st
              /\ self (snd (BSCC.Invoke InvokedChaincodeName stub st)) = self st
              /\ consumers (snd (BSCC.Invoke InvokedChaincodeName stub st)) = consumers st).
  { destruct H as [Hout Hrest].
    destruct (outcome_cases _ _ Hout) as [H1 H2]. auto. }
  subst nil_answer.
  destruct (Nat.lt_ge_cases (length (GetArgs stub)) 2) as [Hlt | Hge].
  { rewrite (Invoke_short_run _ _ Hlt). simpl. split; [lia | auto]. }
  destruct (two_arguments _ Hge) as (arg0 & arg1 & rest & Hargs).
  rewrite (Invoke_run _ _ _ _ _ Hargs). cbv zeta.
  destruct (GetSignedProposal stub) as [[sp | ] [err | ]];
    [ simpl; split; [intros [_ Hn]; discriminate Hn | auto]
    |
    | simpl; split; [intros [_ Hn]; discriminate Hn | auto]
    | simpl; auto ].
  assert (Hnot : ~ ((2 <= length (GetArgs stub))%nat
                    /\ (Some sp, @None error) = (None, None)))
    by (intros [_ Hn]; discriminate Hn).
  destruct (InvokedChaincodeName (ProposalBytes sp)) as [name | err]; [ | simpl; auto].
  destruct (decide (name ≠ BSCC.Name)); [simpl; auto | ].
  destruct (decide (_ = const.approveSensoryReading)); [simpl; auto | ].
  destruct (decide (_ = const.simulateForkAttempt)); [simpl; auto | ].
  destruct (decide (_ = const.checkForkStatus)); [ | simpl; auto].
  match goal with |- context [BSCC.CheckForkStatus ?c ?s] =>
    destruct (CheckForkStatus_frame c s) as ([r Hr] & Hw & Hs & Hc & _)
  end.
  rewrite Hr, Hw, Hs, Hc. auto.
Qed.

(** X2. A response with status OK is only given to a call with at
    least two arguments whose proposal was retrieved and names the
    chaincode itself, for one of the three functions. *)
Theorem Invoke_success_is_self_invocation (stub : ChaincodeStub) (st : State)
    (r : pb.Response) :
  fst (BSCC.Invoke InvokedChaincodeName stub st) = Return r ->
  pb.Status r = shim.OK ->
  exists arg0 arg1 rest sp,
    GetArgs stub = arg0 :: arg1 :: rest
    /\ GetSignedProposal stub = (Some sp, None)
    /\ InvokedChaincodeName (ProposalBytes sp) = Ok BSCC.Name
    /\ (String.string_of_list_byte arg0 = const.approveSensoryReading
        \/ String.string_of_list_byte arg0 = const.simulateForkAttempt
        \/ String.string_of_list_byte arg0 = const.checkForkStatus).
Proof.
  destruct (Nat.lt_ge_cases (length (GetArgs stub)) 2) as [Hlt | Hge].
  - rewrite (Invoke_short_run _ _ Hlt). simpl. intros [= <-]. discriminate.
  - destruct (two_arguments _ Hge) as (arg0 & arg1 & rest & Hargs).
    rewrite (Invoke_run _ _ _ _ _ Hargs). cbv zeta.
    destruct (GetSignedProposal stub) as [[sp | ] [e | ]];
      [simpl; intros [= <-]; discriminate | | simpl; intros [= <-]; discriminate
      | simpl; discriminate].
    destruct (InvokedChaincodeName (ProposalBytes sp)) as [name | e] eqn:Hname;
      [ | simpl; intros [= <-]; discriminate].
    destruct (decide (name ≠ BSCC.Name)) as [Hne | Heq];
      [simpl; intros [= <-]; discriminate | ].
    assert (name = BSCC.Name) as -> by (destruct (decide (name = BSCC.Name)); tauto).
    intros Hr Hok. exists arg0, arg1, rest, sp. repeat split; try reflexivity; try assumption.
    destruct (decide (_ = const.approveSensoryReading)); [auto | ].
    destruct (decide (_ = const.simulateForkAttempt)); [auto | ].
    destruct (decide (_ = const.checkForkStatus)); [auto | ].
    simpl in Hr. injection Hr as <-. discriminate Hok.
Qed.

(** X3. With two arguments or more and a stub that cannot give the
    signed proposal, [Invoke] answers with the stub's error in brackets,
    whatever the function name, and has made no call after the
    retrieval. *)
Theorem Invoke_proposal_unavailable (stub : ChaincodeStub) (st : State) (e : error) :
  (2 <= length (GetArgs stub))%nat ->
  snd (GetSignedProposal stub) = Some e ->
  fst (BSCC.Invoke InvokedChaincodeName stub st)
  = Return (shim.Error ("Failed getting signed proposal from stub: [" +:+ Error e +:+ "]"))
  /\ calls (snd (BSCC.Invoke InvokedChaincodeName stub st))
     = calls st ++ [CallGetArgs; CallGetSignedProposal].
Proof.
  intros Hge He. destruct (two_arguments _ Hge) as (arg0 & arg1 & rest & Hargs).
  rewrite (Invoke_run _ _ _ _ _ Hargs). destruct (GetSignedProposal stub) as [sp err].
  simpl in He. subst err. destruct sp; simpl; rewrite <- app_assoc; split; reflexivity.
Qed.

(** X4. When the invoked chaincode's name cannot be read from the
    proposal, [Invoke] answers with that error and no function is
    run. *)
Theorem Invoke_name_unreadable (stub : ChaincodeStub) (st : State)
    (sp : SignedProposal) (e : error) :
  (2 <= length (GetArgs stub))%nat ->
  GetSignedProposal stub = (Some sp, None) ->
  InvokedChaincodeName (ProposalBytes sp) = Err e ->
  fst (BSCC.Invoke InvokedChaincodeName stub st)
  = Return (shim.Error ("Failed to identify the called chaincode: " +:+ Error e))
  /\ calls (snd (BSCC.Invoke InvokedChaincodeName stub st))
     = calls st ++ [CallGetArgs; CallGetSignedProposal].
Proof.
  intros Hge Hsp He. destruct (two_arguments _ Hge) as (arg0 & arg1 & rest & Hargs).
  rewrite (Invoke_run _ _ _ _ _ Hargs), Hsp, He. simpl. rewrite <- app_assoc.
  split; reflexivity.
Qed.

Ltac self_invocation Hargs Hsp Hname :=
  rewrite (Invoke_run _ _ _ _ _ Hargs), Hsp, Hname; cbv zeta;
  destruct (decide (BSCC.Name ≠ BSCC.Name)) as [Hne | _]; [contradiction Hne; reflexivity | ].

(** X5. ApproveSensoryReading from the chaincode itself is answered
    with the second argument as payload; the call stages no file and
    submits no approval: the only calls are the two on the stub. *)
Theorem Invoke_ApproveSensoryReading (stub : ChaincodeStub) (st : State)
    (sp : SignedProposal) (arg0 txID : bytes) (rest : list bytes) :
  GetArgs stub = arg0 :: txID :: rest ->
  String.string_of_list_byte arg0 = const.approveSensoryReading ->
  GetSignedProposal stub = (Some sp, None) ->
  InvokedChaincodeName (ProposalBytes sp) = Ok BSCC.Name ->
  fst (BSCC.Invoke InvokedChaincodeName stub st) = Return (shim.Success txID)
  /\ calls (snd (BSCC.Invoke InvokedChaincodeName stub st))
     = calls st ++ [CallGetArgs; CallGetSignedProposal].
Proof.
  intros Hargs Hfn Hsp Hname. self_invocation Hargs Hsp Hname. rewrite Hfn. simpl.
  rewrite <- app_assoc. split; reflexivity.
Qed.

(** X6. SimulateForkAttempt from the chaincode itself succeeds with
    an empty payload, whatever the second argument is; it logs a warning
    and makes no call besides the two on the stub. *)
Theorem Invoke_SimulateForkAttempt (stub : ChaincodeStub) (st : State)
    (sp : SignedProposal) (arg0 arg1 : bytes) (rest : list bytes) :
  GetArgs stub = arg0 :: arg1 :: rest ->
  String.string_of_list_byte arg0 = const.simulateForkAttempt ->
  GetSignedProposal stub = (Some sp, None) ->
  InvokedChaincodeName (ProposalBytes sp) = Ok BSCC.Name ->
  fst (BSCC.Invoke InvokedChaincodeName stub st) = Return (shim.Success [])
  /\ calls (snd (BSCC.Invoke InvokedChaincodeName stub st))
     = calls st ++ [CallGetArgs; CallGetSignedProposal]
  /\ log (snd (BSCC.Invoke InvokedChaincodeName stub st))
     = log st ++ [(INFO, "Invoke function: SimulateForkAttempt");
                  (WARNING, "Adding a fork block!")].
Proof.
  intros Hargs Hfn Hsp Hname. self_invocation Hargs Hsp Hname. rewrite Hfn. simpl.
  rewrite <- !app_assoc. repeat split.
Qed.

(** X7. CheckForkStatus from the chaincode itself is answered as
    [CheckForkStatus] answers on the second argument read as a string;
    the marker is looked up once, unless that string is empty. *)
Theorem Invoke_CheckForkStatus_delegates (stub : ChaincodeStub) (st : State)
    (sp : SignedProposal) (arg0 channel : bytes) (rest : list bytes) :
  GetArgs stub = arg0 :: channel :: rest ->
  String.string_of_list_byte arg0 = const.checkForkStatus ->
  GetSignedProposal stub = (Some sp, None) ->
  InvokedChaincodeName (ProposalBytes sp) = Ok BSCC.Name ->
  fst (BSCC.Invoke InvokedChaincodeName stub st)
  = fst (BSCC.CheckForkStatus (String.string_of_list_byte channel) st)
  /\ calls (snd (BSCC.Invoke InvokedChaincodeName stub st))
     = calls st ++ [CallGetArgs; CallGetSignedProposal]
         ++ (if decide (String.string_of_list_byte channel = "") then []
             else [CallStat (marker (String.string_of_list_byte channel))]).
Proof.
  intros Hargs Hfn Hsp Hname. self_invocation Hargs Hsp Hname. rewrite Hfn. simpl.
  destruct (decide (String.string_of_list_byte channel = "")) as [-> | Hne].
  - simpl. rewrite <- !app_assoc. split; reflexivity.
  - rewrite !(CheckForkStatus_eq _ _ Hne). simpl. rewrite <- !app_assoc. split; reflexivity.
Qed.

(** X8. Any other function name from the chaincode itself is
    answered with an error that names it; nothing is looked up. *)
Theorem Invoke_function_not_found (stub : ChaincodeStub) (st : State)
    (sp : SignedProposal) (arg0 arg1 : bytes) (rest : list bytes) :
  GetArgs stub = arg0 :: arg1 :: rest ->
  String.string_of_list_byte arg0 ≠ const.approveSensoryReading ->
  String.string_of_list_byte arg0 ≠ const.simulateForkAttempt ->
  String.string_of_list_byte arg0 ≠ const.checkForkStatus ->
  GetSignedProposal stub = (Some sp, None) ->
  InvokedChaincodeName (ProposalBytes sp) = Ok BSCC.Name ->
  fst (BSCC.Invoke InvokedChaincodeName stub st)
  = Return (shim.Error ("Requested function " +:+ String.string_of_list_byte arg0
                          +:+ " not found."))
  /\ calls (snd (BSCC.Invoke InvokedChaincodeName stub st))
     = calls st ++ [CallGetArgs; CallGetSignedProposal].
Proof.
  intros Hargs H1 H2 H3 Hsp Hname. self_invocation Hargs Hsp Hname.
  destruct (decide (_ = const.approveSensoryReading)); [contradiction | ].
  destruct (decide (_ = const.simulateForkAttempt)); [contradiction | ].
  destruct (decide (_ = const.checkForkStatus)); [contradiction | ].
  simpl. rewrite <- app_assoc. split; reflexivity.
Qed.

(** X9. [Invoke] never reads the signature of the signed proposal:
    two proposals with the same bytes get the same response and leave
    the same state, whatever their signatures. *)
Theorem Invoke_ignores_signature (args : list bytes) (proposal sig1 sig2 : bytes)
    (st : State) :
  BSCC.Invoke InvokedChaincodeName
    {| GetArgs := args;
       GetSignedProposal := (Some {| ProposalBytes := proposal; Signature := sig1 |}, None) |} st
  = BSCC.Invoke InvokedChaincodeName
      {| GetArgs := args;
         GetSignedProposal := (Some {| ProposalBytes := proposal; Signature := sig2 |}, None) |} st.
Proof.
  destruct args as [| arg0 [| arg1 rest]].
  - rewrite !Invoke_short_run by (simpl; lia). reflexivity.
  - rewrite !Invoke_short_run by (simpl; lia). reflexivity.
  - rewrite (Invoke_run {| GetArgs := arg0 :: arg1 :: rest;
                           GetSignedProposal :=
                             (Some {| ProposalBytes := proposal; Signature := sig1 |},
                              None) |}
               st arg0 arg1 rest eq_refl).
    rewrite (Invoke_run {| GetArgs := arg0 :: arg1 :: rest;
                           GetSignedProposal :=
                             (Some {| ProposalBytes := proposal; Signature := sig2 |},
                              None) |}
               st arg0 arg1 rest eq_refl).
    reflexivity.
Qed.

End Routes.

(** ** More on the fork oracle *)

(** X10. [CheckForkStatus] only observes: the surroundings, the
    chaincode object and the log are untouched.  On the empty channel it
    answers with an error before it looks anything up; on any other
    channel it looks the marker up once and answers with success and an
    encoded boolean (the serialization never fails). *)
Theorem CheckForkStatus_only_observes (channelID : string) (st : State) :
  world (snd (BSCC.CheckForkStatus channelID st)) = world st
  /\ self (snd (BSCC.CheckForkStatus channelID st)) = self st
  /\ log (snd (BSCC.CheckForkStatus channelID st)) = log st
  /\ (channelID = "" ->
      BSCC.CheckForkStatus channelID st = (Return (shim.Error "ChannelID not specified"), st))
  /\ (channelID ≠ "" ->
      calls (snd (BSCC.CheckForkStatus channelID st)) = calls st ++ [CallStat (marker channelID)]
      /\ exists flag, fst (BSCC.CheckForkStatus channelID st)
                      = Return (shim.Success (encoded flag))).
Proof.
  destruct (decide (channelID = "")) as [-> | Hne].
  - split; [reflexivity | ]. split; [reflexivity | ]. split; [reflexivity | ].
    split; [reflexivity | ]. intros Hne. contradiction Hne. reflexivity.
  - rewrite (CheckForkStatus_eq _ _ Hne). simpl.
    split; [reflexivity | ]. split; [reflexivity | ]. split; [reflexivity | ].
    split; [intros Heq; contradiction | ]. intros _. split; [reflexivity | eauto].
Qed.

(** ** More on initialization *)

Ltac run_Init :=
  unfold BSCC.Init, mbind, M_bind, mret, M_ret, bloccProtoLogger.Info,
    bloccProtoLogger.Error, logger, go_consumer, sys.LookupEnv, syscall, os.LookupEnv,
    get_self, set_config; simpl.

Lemma Init_ok_run (stub : ChaincodeStub) (st : State) (peerAddress tlsCertFile : string) :
  environ (world st) !! "CORE_PEER_ADDRESS" = Some peerAddress ->
  environ (world st) !! "CORE_PEER_TLS_ROOTCERT_FILE" = Some tlsCertFile ->
  BSCC.Init stub st
  = (Return (shim.Success []),
     {| world := world st;
        self := {| peerInstance := peerInstance (self st);
                   config := {| PeerAddress := peerAddress;
                                TLSCertFile := tlsCertFile;
                                CryptoProvider :=
                                  peer.CryptoProvider (peerInstance (self st)) |} |};
        consumers := S (consumers st);
        calls := calls st ++ [CallGo; CallLookupEnv "CORE_PEER_ADDRESS";
                              CallLookupEnv "CORE_PEER_TLS_ROOTCERT_FILE"];
        log := log st ++ [(INFO, "Init BSCC")] |}).
Proof.
  intros H1 H2. run_Init. rewrite H1. simpl. rewrite H2. simpl.
  rewrite <- !app_assoc. destruct (world st). reflexivity.
Qed.

(** X11. With both variables set, [Init] succeeds and stores the
    peer address, the certificate path and the peer's crypto provider;
    it has started one consumer, read the two variables in order, and
    left the surroundings as they were. *)
Theorem Init_stores_configuration (stub : ChaincodeStub) (st : State)
    (peerAddress tlsCertFile : string) :
  environ (world st) !! "CORE_PEER_ADDRESS" = Some peerAddress ->
  environ (world st) !! "CORE_PEER_TLS_ROOTCERT_FILE" = Some tlsCertFile ->
  BSCC.Init stub st
  = (Return (shim.Success []),
     {| world := world st;
        self := {| peerInstance := peerInstance (self st);
                   config := {| PeerAddress := peerAddress;
                                TLSCertFile := tlsCertFile;
                                CryptoProvider :=
                                  peer.CryptoProvider (peerInstance (self st)) |} |};
        consumers := S (consumers st);
        calls := calls st ++ [CallGo; CallLookupEnv "CORE_PEER_ADDRESS";
                              CallLookupEnv "CORE_PEER_TLS_ROOTCERT_FILE"];
        log := log st ++ [(INFO, "Init BSCC")] |}).
Proof.
  intros H1 H2. run_Init. rewrite H1. simpl. rewrite H2. simpl.
  rewrite <- !app_assoc. destruct (world st). reflexivity.
Qed.

(** X12. Without CORE_PEER_ADDRESS [Init] fails with that name in
    the message, whether or not the second variable is set: it is not
    looked up.  The chaincode object is untouched, but the consumer has
    been started. *)
Theorem Init_without_peer_address (stub : ChaincodeStub) (st : State) :
  environ (world st) !! "CORE_PEER_ADDRESS" = None ->
  BSCC.Init stub st
  = (Return (shim.Error "CORE_PEER_ADDRESS is not set"),
     {| world := world st; self := self st; consumers := S (consumers st);
        calls := calls st ++ [CallGo; CallLookupEnv "CORE_PEER_ADDRESS"];
        log := log st ++ [(INFO, "Init BSCC"); (ERROR, "CORE_PEER_ADDRESS is not set")] |}).
Proof.
  intros H1. run_Init. rewrite H1. simpl. rewrite <- !app_assoc.
  destruct (world st). reflexivity.
Qed.

(** X13. With CORE_PEER_ADDRESS but without the certificate path
    [Init] fails naming the missing variable and stores nothing, not
    even the address it has read. *)
Theorem Init_without_tls_certificate (stub : ChaincodeStub) (st : State)
    (peerAddress : string) :
  environ (world st) !! "CORE_PEER_ADDRESS" = Some peerAddress ->
  environ (world st) !! "CORE_PEER_TLS_ROOTCERT_FILE" = None ->
  BSCC.Init stub st
  = (Return (shim.Error "CORE_PEER_TLS_ROOTCERT_FILE is not set"),
     {| world := world st; self := self st; consumers := S (consumers st);
        calls := calls st ++ [CallGo; CallLookupEnv "CORE_PEER_ADDRESS";
                              CallLookupEnv "CORE_PEER_TLS_ROOTCERT_FILE"];
        log := log st ++ [(INFO, "Init BSCC");
                          (ERROR, "CORE_PEER_TLS_ROOTCERT_FILE is not set")] |}).
Proof.
  intros H1 H2. run_Init. rewrite H1. simpl. rewrite H2. simpl. rewrite <- !app_assoc.
  destruct (world st). reflexivity.
Qed.

(** X14. Every call of [Init] starts a consumer, whatever it
    returns: after a second call two more consumers run than before the
    first. *)
Theorem Init_again_adds_a_consumer (stub1 stub2 : ChaincodeStub) (st : State) :
  consumers (snd (BSCC.Init stub2 (snd (BSCC.Init stub1 st)))) = S (S (consumers st)).
Proof. rewrite !Init_consumers. reflexivity. Qed.

(** ** More on credential staging *)

Lemma TempFile_loop_frame (fuel : nat) (dir pattern : string) (w : World) :
  let r := ioutil.TempFile_loop fuel dir pattern w in
  write_fault (snd r) = write_fault w
  /\ close_fault (snd r) = close_fault w
  /\ remove_fault (snd r) = remove_fault w
  /\ match fst r with
     | Ok f => files w !! os.Name f = None /\ files (snd r) = <[os.Name f := []]> (files w)
     | Err _ => files (snd r) = files w
     end.
Proof.
  revert w. induction fuel as [| fuel IH]; intros w; simpl; [auto | ].
  unfold os.OpenFile_excl. simpl.
  destruct (open_fault w) as [ft | ]; simpl; [auto | ].
  destruct (files w !! filepath.Join dir (pattern +:+ pretty (tmp_seed w)))
    as [b | ] eqn:Hf; simpl; [ | auto].
  destruct fuel as [| fuel']; [simpl; auto | ].
  apply (IH (set_tmp_seed (S (tmp_seed w)) w)).
Qed.

Lemma TempFile_frame (w : World) :
  let r := ioutil.TempFile w "" "rootCertFile" in
  write_fault (snd r) = write_fault w
  /\ close_fault (snd r) = close_fault w
  /\ remove_fault (snd r) = remove_fault w
  /\ match fst r with
     | Ok f => files w !! os.Name f = None /\ files (snd r) = <[os.Name f := []]> (files w)
     | Err _ => files (snd r) = files w
     end.
Proof. apply TempFile_loop_frame. Qed.

(** X15. When the staging succeeds, the path it returns did not
    exist before, now holds exactly the certificate bytes, and no other
    path has changed. *)
Theorem createTempFile_round_trip (rootCertFile : bytes) (st : State) (p : string) :
  fst (BSCC.createTempFile rootCertFile st) = Return (Ok p) ->
  let after := world (snd (BSCC.createTempFile rootCertFile st)) in
  files (world st) !! p = None
  /\ files after !! p = Some rootCertFile
  /\ forall q, q ≠ p -> files after !! q = files (world st) !! q.
Proof.
  intros H. destruct (createTempFile_ok _ _ _ H) as (w' & Heq & Hnew & Hfiles).
  rewrite Heq. simpl. rewrite Hfiles. split; [exact Hnew | ].
  split; [apply lookup_insert_eq | ]. intros q Hq. apply lookup_insert_ne. congruence.
Qed.

(** The scratch directory is $TMPDIR when that is set, and the name is
    cleaned. *)
Example createTempFile_in_TMPDIR :
  fst (BSCC.createTempFile (String.list_byte_of_string "CERT-A")
         (set_world {| environ := {[ "TMPDIR" := "/var/tmp/" ]}; files := ∅;
                       stat_fault := ∅; open_fault := None; write_fault := None;
                       close_fault := None; remove_fault := None; tmp_seed := 7 |}
            Fixture.fresh))
  = Return (Ok "/var/tmp/rootCertFile7").
Proof. vm_compute. reflexivity. Qed.

(** X16. Whatever its outcome, the staging returns (it never
    panics), leaves every file that existed with its contents, removes
    nothing and does not touch the chaincode object. *)
Theorem createTempFile_keeps_existing_files (rootCertFile : bytes) (st : State) :
  let final := snd (BSCC.createTempFile rootCertFile st) in
  (exists r, fst (BSCC.createTempFile rootCertFile st) = Return r)
  /\ (forall q content, files (world st) !! q = Some content ->
                        files (world final) !! q = Some content)
  /\ removals (calls final) = removals (calls st)
  /\ self final = self st.
Proof.
  rewrite createTempFile_eq.
  pose proof (TempFile_frame (world st)) as (_ & _ & _ & Hf). revert Hf.
  destruct (ioutil.TempFile (world st) "" "rootCertFile") as [[f | e] w1]; simpl.
  2: { intros ->. rewrite removals_app. simpl. rewrite app_nil_r. eauto 10. }
  intros [Hnew Hfiles].
  assert (Hkeep : forall q content, files (world st) !! q = Some content ->
                                    files w1 !! q = Some content).
  { intros q content Hq. rewrite Hfiles, lookup_insert_ne; [exact Hq | congruence]. }
  unfold os.Write, os.Close.
  destruct (write_fault w1); simpl.
  { rewrite !removals_app. simpl. rewrite !app_nil_r. eauto 10. }
  destruct (close_fault w1); simpl;
    (split; [eauto | ]);
    (split; [ | rewrite !removals_app; simpl; rewrite !app_nil_r; auto ]);
    intros q content Hq; rewrite lookup_insert_ne; [auto | congruence | auto | congruence].
Qed.

(** X17. When the scratch file has been created and the write or
    the close then fails, the staging returns an error and the file it
    created stays behind: it did not exist before, it exists afterwards,
    and no removal was attempted. *)
Theorem createTempFile_late_failure_leaves_file (rootCertFile : bytes) (st : State)
    (f : os.File) (w1 : World) :
  ioutil.TempFile (world st) "" "rootCertFile" = (Ok f, w1) ->
  write_fault (world st) ≠ None \/ close_fault (world st) ≠ None ->
  let final := snd (BSCC.createTempFile rootCertFile st) in
  (exists e, fst (BSCC.createTempFile rootCertFile st) = Return (Err e))
  /\ files (world st) !! os.Name f = None
  /\ is_Some (files (world final) !! os.Name f)
  /\ removals (calls final) = removals (calls st).
Proof.
  intros Ht Hfault. rewrite createTempFile_eq.
  pose proof (TempFile_frame (world st)) as (Hwf & Hcf & _ & Hf). revert Hwf Hcf Hf.
  rewrite Ht. simpl. intros Hwf Hcf [Hnew Hfiles].
  unfold os.Write, os.Close. rewrite Hwf.
  destruct (write_fault (world st)) as [ft | ]; simpl.
  - rewrite Hfiles, lookup_insert_eq, !removals_app. simpl. rewrite !app_nil_r. eauto 10.
  - rewrite Hcf. destruct (close_fault (world st)) as [ft | ]; simpl.
    + rewrite lookup_insert_eq, !removals_app. simpl. rewrite !app_nil_r. eauto 10.
    + destruct Hfault as [H | H]; contradiction H; reflexivity.
Qed.

(** X18. [removeTempFile] always returns, makes the one call to
    [os.Remove] and leaves every other path unchanged.  When the
    removal is not refused, the path is absent afterwards; nothing is
    logged when the file was there and one error line when it was not.
    When the removal is refused, the surroundings are unchanged, the
    file included, and the refusal is logged. *)
Theorem removeTempFile_always_returns (filePath : string) (st : State) :
  let final := snd (BSCC.removeTempFile filePath st) in
  fst (BSCC.removeTempFile filePath st) = Return ()
  /\ calls final = calls st ++ [CallRemove filePath]
  /\ (forall q, q ≠ filePath -> files (world final) !! q = files (world st) !! q)
  /\ (remove_fault (world st) = None ->
      files (world final) !! filePath = None
      /\ (is_Some (files (world st) !! filePath) -> log final = log st)
      /\ (files (world st) !! filePath = None ->
          log final = log st ++ [(ERROR, "Failed to remove temp file: remove " +:+ filePath
                                           +:+ ": no such file or directory")]))
  /\ (forall f, remove_fault (world st) = Some f ->
      world final = world st
      /\ log final = log st ++ [(ERROR, "Failed to remove temp file: remove " +:+ filePath
                                       +:+ ": " +:+ strerror (Efault f))]).
Proof.
  rewrite removeTempFile_eq.
  destruct (remove_fault (world st)) as [f | ] eqn:Hrf; simpl.
  { split; [reflexivity | ]. split; [reflexivity | ]. split; [reflexivity | ].
    split; [discriminate | ]. intros f' [= <-]. split; reflexivity. }
  destruct (files (world st) !! filePath) as [content | ] eqn:Hp; simpl.
  - split; [reflexivity | ]. split; [reflexivity | ].
    split; [intros q Hq; apply lookup_delete_ne; congruence | ].
    split; [ | discriminate]. intros _. split; [apply lookup_delete_eq | ].
    split; [reflexivity | discriminate].
  - split; [reflexivity | ]. split; [reflexivity | ]. split; [reflexivity | ].
    split; [ | discriminate]. intros _. split; [exact Hp | ].
    split; [intros [x Hx]; discriminate Hx | reflexivity].
Qed.

(** ** More on the event pipeline *)

Lemma createTempFile_returns (rootCertFile : bytes) (st : State) :
  exists r, fst (BSCC.createTempFile rootCertFile st) = Return r.
Proof.
  rewrite createTempFile_eq.
  destruct (ioutil.TempFile _ _ _) as [[f | e] w1]; simpl; [ | eauto].
  destruct (os.Write w1 f rootCertFile) as [[e | ] w2]; simpl; [eauto | ].
  destruct (os.Close w2 f) as [[e | ] w3]; simpl; eauto.
Qed.

Lemma createTempFile_self (rootCertFile : bytes) (st : State) :
  self (snd (BSCC.createTempFile rootCertFile st)) = self st
  /\ consumers (snd (BSCC.createTempFile rootCertFile st)) = consumers st.
Proof.
  rewrite createTempFile_eq.
  destruct (ioutil.TempFile _ _ _) as [[f | e] w1]; simpl; [ | auto].
  destruct (os.Write w1 f rootCertFile) as [[e | ] w2]; simpl; [auto | ].
  destruct (os.Close w2 f) as [[e | ] w3]; simpl; auto.
Qed.

Section MorePipeline.

Variable ApproveForThisPeerCmd : BCCSP -> list string -> World -> option error * World.

(** X19. When the registry lookup returns an error, the event is
    dropped with that error in the log, whatever organizations came
    with it: the lookup is the only call, and nothing else changes. *)
Theorem processEvent_lookup_error (e : Event) (st : State)
    (orgs : list OrdererOrg) (err : error) :
  peer.GetOrdererInfo (peerInstance (self st)) (ChannelID e) = (orgs, Some err) ->
  BSCC.processEvent ApproveForThisPeerCmd e st
  = (Return (),
     logged ERROR ("Failed to gather orderer info: " +:+ Error err)
       (called (CallGetOrdererInfo (ChannelID e)) (received e st))).
Proof.
  intros H. rewrite processEvent_resolved, (gatherOrdererInfo_lookup_error _ _ _ _ H).
  reflexivity.
Qed.

(** X20. When the resolver succeeds and the staging fails, the
    event is dropped: [processEvent] returns, submits nothing, removes
    nothing (what the staging left behind stays), and logs the error. *)
Theorem processEvent_staging_fails (e : Event) (st : State)
    (address : string) (rootCertFile : bytes) (err : error) :
  fst (BSCC.gatherOrdererInfo (ChannelID e) st) = Return (Ok (address, rootCertFile)) ->
  fst (BSCC.createTempFile rootCertFile st) = Return (Err err) ->
  let final := snd (BSCC.processEvent ApproveForThisPeerCmd e st) in
  fst (BSCC.processEvent ApproveForThisPeerCmd e st) = Return ()
  /\ submissions (calls final) = submissions (calls st)
  /\ removals (calls final) = removals (calls st)
  /\ world final = world (snd (BSCC.createTempFile rootCertFile st))
  /\ log final
     = log st ++ [(INFO, "BLOCC - Received approval event: " +:+ Event_String e);
                  (ERROR, "Failed to create temp file: " +:+ Error err)].
Proof.
  intros Hg Hc final. subst final. rewrite processEvent_resolved, Hg. cbv zeta.
  set (st1 := called (CallGetOrdererInfo (ChannelID e)) (received e st)).
  destruct (createTempFile_world rootCertFile st st1 eq_refl) as [Hfst Hworld].
  rewrite Hc in Hfst. rewrite <- Hworld. clear Hworld. revert Hfst.
  rewrite createTempFile_eq.
  destruct (ioutil.TempFile (world st1) "" "rootCertFile") as [[f | e1] w1]; simpl.
  2: { intros [= ->]. rewrite !submissions_app, !removals_app, <- !app_assoc. simpl.
       rewrite !app_nil_r. auto. }
  destruct (os.Write w1 f rootCertFile) as [[e1 | ] w2]; simpl.
  { intros [= ->]. rewrite !submissions_app, !removals_app, <- !app_assoc. simpl.
    rewrite !app_nil_r. auto. }
  destruct (os.Close w2 f) as [[e1 | ] w3]; simpl; [ | discriminate].
  intros [= ->]. rewrite !submissions_app, !removals_app, <- !app_assoc. simpl.
  rewrite !app_nil_r. auto.
Qed.

(** X21. [processEvent] panics exactly when the registry yields,
    without error, a first organization that lacks an address or a root
    certificate.  No failure of the staging, of the approval command or
    of the removal makes it panic. *)
Theorem processEvent_panics_iff (e : Event) (st : State) :
  (exists msg, fst (BSCC.processEvent ApproveForThisPeerCmd e st) = Panic msg)
  <-> (exists org rest,
         peer.GetOrdererInfo (peerInstance (self st)) (ChannelID e) = (org :: rest, None)
         /\ (Addresses org = [] \/ RootCerts org = [])).
Proof.
  rewrite processEvent_resolved. cbv zeta.
  destruct (peer.GetOrdererInfo (peerInstance (self st)) (ChannelID e))
    as [[| org rest] [err | ]] eqn:Hl.
  - rewrite (gatherOrdererInfo_lookup_error _ _ _ _ Hl).
    split; [intros [msg H]; discriminate H | intros (o & r & H & _); discriminate H].
  - rewrite (gatherOrdererInfo_empty _ _ Hl).
    split; [intros [msg H]; discriminate H | intros (o & r & H & _); discriminate H].
  - rewrite (gatherOrdererInfo_lookup_error _ _ _ _ Hl).
    split; [intros [msg H]; discriminate H | intros (o & r & H & _); discriminate H].
  - rewrite (gatherOrdererInfo_head _ _ _ _ Hl).
    destruct (Addresses org) as [| a addrs] eqn:Ha.
    { split; [intros _; exists org, rest; rewrite Ha; auto | eauto]. }
    destruct (RootCerts org) as [| c certs] eqn:Hc.
    { split; [intros _; exists org, rest; rewrite Hc; auto | eauto]. }
    split.
    + intros [msg H]. exfalso. revert H.
      match goal with |- context [BSCC.createTempFile ?b ?s] =>
        destruct (createTempFile_returns b s) as [r Hr];
        destruct (BSCC.createTempFile b s) as [o s2]; simpl in Hr; subst o
      end.
      destruct r; discriminate.
    + intros (o & r & [= <- <-] & [H | H]); [rewrite Ha in H | rewrite Hc in H];
        discriminate H.
Qed.

(** X22. [processEvent] never writes to the chaincode object: the
    configuration and the peer are the same afterwards, whatever
    happened to the event. *)
Theorem processEvent_keeps_the_object (e : Event) (st : State) :
  self (snd (BSCC.processEvent ApproveForThisPeerCmd e st)) = self st.
Proof.
  rewrite processEvent_resolved. cbv zeta.
  destruct (fst (BSCC.gatherOrdererInfo (ChannelID e) st)) as [[[address cert] | err] | msg];
    [ | reflexivity | reflexivity].
  match goal with |- context [BSCC.createTempFile ?b ?s] =>
    destruct (createTempFile_self b s) as [Hs _];
    destruct (BSCC.createTempFile b s) as [[[p | err] | msg] st2]; simpl in Hs
  end; [ | exact Hs | exact Hs].
  simpl.
  match goal with |- context [BSCC.removeTempFile ?p ?s] =>
    destruct (removeTempFile_files p s) as (_ & _ & _ & Hrs); rewrite Hrs
  end.
  destruct (fst (ApproveForThisPeerCmd _ _ _)); exact Hs.
Qed.

End MorePipeline.

Lemma gatherOrdererInfo_peer (channelID : string) (st st' : State) :
  peerInstance (self st') = peerInstance (self st) ->
  fst (BSCC.gatherOrdererInfo channelID st') = fst (BSCC.gatherOrdererInfo channelID st).
Proof.
  intros Hs. unfold BSCC.gatherOrdererInfo, mbind, M_bind, get_self, call; simpl. rewrite Hs.
  destruct (peer.GetOrdererInfo (peerInstance (self st)) channelID) as [orgs [e | ]];
    simpl; [reflexivity | ].
  destruct orgs as [| org rest]; simpl; [reflexivity | ].
  unfold index. destruct (Addresses org) as [| a addrs]; simpl; [reflexivity | ].
  destruct (RootCerts org) as [| c certs]; reflexivity.
Qed.

Section Composition.

Variable ApproveForThisPeerCmd : BCCSP -> list string -> World -> option error * World.

Lemma processEvent_submitted_calls (e : Event) (st : State)
    (address : string) (rootCertFile : bytes) (p : string) :
  fst (BSCC.gatherOrdererInfo (ChannelID e) st) = Return (Ok (address, rootCertFile)) ->
  fst (BSCC.createTempFile rootCertFile st) = Return (Ok p) ->
  calls (snd (BSCC.processEvent ApproveForThisPeerCmd e st))
  = calls st ++ [CallGetOrdererInfo (ChannelID e); CallTempFile "" "rootCertFile";
                 CallWrite p; CallClose p;
                 CallExecute (approvalArgs address p e (config (self st)));
                 CallRemove p].
Proof.
  intros Hg Hc.
  set (st1 := called (CallGetOrdererInfo (ChannelID e)) (received e st)).
  destruct (createTempFile_world rootCertFile st st1 eq_refl) as [Hfst _].
  rewrite Hc in Hfst.
  destruct (createTempFile_ok rootCertFile st1 p Hfst) as (staged & Heq & _ & _).
  rewrite processEvent_resolved, Hg. cbv zeta. fold st1. rewrite Heq. simpl snd.
  match goal with |- context [BSCC.removeTempFile p ?s] =>
    destruct (removeTempFile_files p s) as (_ & _ & Hrc & _); rewrite Hrc
  end.
  destruct (fst (ApproveForThisPeerCmd _ _ _)); simpl; rewrite <- !app_assoc; reflexivity.
Qed.

(** X23. After a successful [Init], an event that resolves and
    stages is submitted with the peer address and the certificate path
    [Init] read from the environment. *)
Theorem Init_then_processEvent (stub : ChaincodeStub) (e : Event) (st : State)
    (peerAddress tlsCertFile address : string) (rootCertFile : bytes) (p : string) :
  environ (world st) !! "CORE_PEER_ADDRESS" = Some peerAddress ->
  environ (world st) !! "CORE_PEER_TLS_ROOTCERT_FILE" = Some tlsCertFile ->
  fst (BSCC.gatherOrdererInfo (ChannelID e) st) = Return (Ok (address, rootCertFile)) ->
  fst (BSCC.createTempFile rootCertFile st) = Return (Ok p) ->
  submissions
    (calls (snd (BSCC.processEvent ApproveForThisPeerCmd e (snd (BSCC.Init stub st)))))
  = submissions (calls st)
      ++ [[ "--ordererAddress=" +:+ address;
            "--rootCertFilePath=" +:+ p;
            "--channelID=" +:+ ChannelID e;
            "--txID=" +:+ SensoryTxID e;
            "--peerAddress=" +:+ peerAddress;
            "--tlsRootCertFile=" +:+ tlsCertFile ]].
Proof.
  intros H1 H2 Hg Hc. rewrite (Init_ok_run stub st _ _ H1 H2). simpl snd.
  match goal with |- context [BSCC.processEvent _ e ?s] => set (st' := s) end.
  assert (Hg' : fst (BSCC.gatherOrdererInfo (ChannelID e) st')
                = Return (Ok (address, rootCertFile)))
    by (rewrite <- Hg; apply gatherOrdererInfo_peer; reflexivity).
  assert (Hc' : fst (BSCC.createTempFile rootCertFile st') = Return (Ok p))
    by (rewrite <- Hc; apply (createTempFile_world rootCertFile st st' eq_refl)).
  rewrite (processEvent_submitted_calls e st' _ _ _ Hg' Hc'). subst st'. simpl.
  rewrite <- !app_assoc, !submissions_app. reflexivity.
Qed.

Hypothesis quiet : forall cp args w, snd (ApproveForThisPeerCmd cp args w) = w.

Lemma processEvent_quiet (e : Event) (st : State) :
  write_fault (world st) = None ->
  close_fault (world st) = None ->
  remove_fault (world st) = None ->
  let final := snd (BSCC.processEvent ApproveForThisPeerCmd e st) in
  files (world final) = files (world st)
  /\ write_fault (world final) = None
  /\ close_fault (world final) = None
  /\ remove_fault (world final) = None.
Proof.
  intros Hwf Hcf Hrf. rewrite processEvent_resolved. cbv zeta.
  destruct (fst (BSCC.gatherOrdererInfo (ChannelID e) st)) as [[[address cert] | err] | msg];
    [ | simpl; auto | simpl; auto].
  rewrite createTempFile_eq. simpl world.
  pose proof (TempFile_frame (world st)) as (Hw1 & Hc1 & Hr1 & Hf). revert Hw1 Hc1 Hr1 Hf.
  destruct (ioutil.TempFile (world st) "" "rootCertFile") as [[f | err] w1]; simpl.
  2: { intros -> -> -> ->. auto. }
  intros Hw1 Hc1 Hr1 [Hnew Hfiles]. unfold os.Write, os.Close. rewrite Hw1, Hwf. simpl.
  rewrite Hc1, Hcf. simpl. rewrite quiet. simpl.
  match goal with |- context [BSCC.removeTempFile ?p ?s] =>
    rewrite (removeTempFile_eq p s);
    assert (Hs : world s = set_files (<[os.Name f := default [] (files w1 !! os.Name f)
                                                     ++ cert]> (files w1)) w1)
      by (destruct (fst (ApproveForThisPeerCmd _ _ _)); reflexivity);
    rewrite !Hs
  end.
  simpl. rewrite Hr1, Hrf, lookup_insert_eq. simpl. rewrite Hw1, Hc1, Hr1, Hwf, Hcf, Hrf.
  split; [ | auto]. rewrite Hfiles, insert_insert_eq. apply delete_insert_id. exact Hnew.
Qed.

(** X24. When writes, closes and removals of scratch files are not
    refused and the approval command leaves the surroundings alone,
    the consumer leaves no file behind: after any sequence of events,
    whatever happened to each, the files are those from before. *)
Theorem consume_leaves_no_files (events : list Event) (st : State) :
  write_fault (world st) = None ->
  close_fault (world st) = None ->
  remove_fault (world st) = None ->
  files (world (snd (BSCC.consume ApproveForThisPeerCmd events st))) = files (world st).
Proof.
  revert st. induction events as [| e events IH]; intros st Hwf Hcf Hrf; [reflexivity | ].
  simpl BSCC.consume. rewrite bind_run.
  destruct (processEvent_quiet e st Hwf Hcf Hrf) as (Hf & Hwf' & Hcf' & Hrf').
  destruct (BSCC.processEvent ApproveForThisPeerCmd e st) as [[[] | msg] st'];
    simpl in Hf, Hwf', Hcf', Hrf'; simpl.
  - rewrite (IH st' Hwf' Hcf' Hrf'). exact Hf.
  - exact Hf.
Qed.

End Composition.

(** ** Signing a proposal *)

Section Signing.

Variable proto_Marshal : chaincode.Proposal -> result bytes.

(** X25. [signProposal] succeeds exactly when the proposal and the
    signer are not nil, the proposal marshals and the signer signs; the
    bytes of the result are the marshalled proposal and its signature
    is the signer's signature of exactly those bytes. *)
Theorem signProposal_ok_iff (proposal : option chaincode.Proposal)
    (signer : option chaincode.Signer) (sp : SignedProposal) :
  chaincode.signProposal proto_Marshal proposal signer = Ok sp
  <-> exists p s,
        proposal = Some p /\ signer = Some s
        /\ proto_Marshal p = Ok (ProposalBytes sp)
        /\ chaincode.Sign s (ProposalBytes sp) = Ok (Signature sp).
Proof.
  unfold chaincode.signProposal. split.
  - destruct proposal as [p | ]; [ | discriminate].
    destruct signer as [s | ]; [ | discriminate].
    destruct (proto_Marshal p) as [b | e] eqn:Hm; [ | discriminate].
    destruct (chaincode.Sign s b) as [sg | e] eqn:Hs; [ | discriminate].
    intros [= <-]. exists p, s. simpl. auto.
  - intros (p & s & -> & -> & Hm & Hs). rewrite Hm, Hs. destruct sp; reflexivity.
Qed.

(** X26. The failures of [signProposal], in the order they are
    checked: a nil proposal (whatever the signer), a nil signer, a
    marshalling error (wrapped with a message, the signer not asked),
    a signing error (returned as it is). *)
Theorem signProposal_errors (p : chaincode.Proposal) (s : chaincode.Signer)
    (signer : option chaincode.Signer) :
  chaincode.signProposal proto_Marshal None signer
  = Err (errors.New "proposal cannot be nil")
  /\ chaincode.signProposal proto_Marshal (Some p) None
     = Err (errors.New "signer cannot be nil")
  /\ (forall e, proto_Marshal p = Err e ->
                chaincode.signProposal proto_Marshal (Some p) (Some s)
                = Err (errors.New ("error marshaling proposal: " +:+ Error e)))
  /\ (forall b e, proto_Marshal p = Ok b -> chaincode.Sign s b = Err e ->
                  chaincode.signProposal proto_Marshal (Some p) (Some s) = Err e).
Proof.
  unfold chaincode.signProposal. repeat split.
  - intros e ->. reflexivity.
  - intros b e -> ->. reflexivity.
Qed.

End Signing.

(** ** Instances *)

Lemma Invoke_success_is_self_invocation_witness :
  exists arg0 arg1 rest sp,
    GetArgs (Fixture.stubFor "bscc" ["ApproveSensoryReading"; "tx-1"]) = arg0 :: arg1 :: rest
    /\ GetSignedProposal (Fixture.stubFor "bscc" ["ApproveSensoryReading"; "tx-1"])
       = (Some sp, None)
    /\ Fixture.nameOf (ProposalBytes sp) = Ok BSCC.Name
    /\ (String.string_of_list_byte arg0 = const.approveSensoryReading
        \/ String.string_of_list_byte arg0 = const.simulateForkAttempt
        \/ String.string_of_list_byte arg0 = const.checkForkStatus).
Proof.
  apply (Invoke_success_is_self_invocation Fixture.nameOf
           (Fixture.stubFor "bscc" ["ApproveSensoryReading"; "tx-1"]) Fixture.fresh
           (shim.Success (String.list_byte_of_string "tx-1")));
    [vm_compute; reflexivity | reflexivity].
Defined.

Lemma Invoke_proposal_unavailable_witness :
  fst (BSCC.Invoke Fixture.nameOf
         (Fixture.stubWithoutProposal ["CheckForkStatus"; "channel-7"]) Fixture.fresh)
  = Return (shim.Error "Failed getting signed proposal from stub: [no proposal]")
  /\ calls (snd (BSCC.Invoke Fixture.nameOf
                   (Fixture.stubWithoutProposal ["CheckForkStatus"; "channel-7"])
                   Fixture.fresh))
     = [CallGetArgs; CallGetSignedProposal].
Proof.
  apply (Invoke_proposal_unavailable Fixture.nameOf
           (Fixture.stubWithoutProposal ["CheckForkStatus"; "channel-7"]) Fixture.fresh
           (errors.New "no proposal")); [simpl; lia | reflexivity].
Defined.

Lemma Invoke_name_unreadable_witness :
  fst (BSCC.Invoke Fixture.unreadable
         (Fixture.stubFor "bscc" ["CheckForkStatus"; "channel-7"]) Fixture.fresh)
  = Return (shim.Error "Failed to identify the called chaincode: malformed proposal")
  /\ calls (snd (BSCC.Invoke Fixture.unreadable
                   (Fixture.stubFor "bscc" ["CheckForkStatus"; "channel-7"]) Fixture.fresh))
     = [CallGetArgs; CallGetSignedProposal].
Proof.
  apply (Invoke_name_unreadable Fixture.unreadable
           (Fixture.stubFor "bscc" ["CheckForkStatus"; "channel-7"]) Fixture.fresh
           {| ProposalBytes := String.list_byte_of_string "bscc"; Signature := [] |}
           (errors.New "malformed proposal"));
    [simpl; lia | reflexivity | reflexivity].
Defined.

Lemma Invoke_ApproveSensoryReading_witness :
  fst (BSCC.Invoke Fixture.nameOf
         (Fixture.stubFor "bscc" ["ApproveSensoryReading"; "tx-1"]) Fixture.fresh)
  = Return (shim.Success (String.list_byte_of_string "tx-1"))
  /\ calls (snd (BSCC.Invoke Fixture.nameOf
                   (Fixture.stubFor "bscc" ["ApproveSensoryReading"; "tx-1"]) Fixture.fresh))
     = [CallGetArgs; CallGetSignedProposal].
Proof.
  apply (Invoke_ApproveSensoryReading Fixture.nameOf
           (Fixture.stubFor "bscc" ["ApproveSensoryReading"; "tx-1"]) Fixture.fresh
           {| ProposalBytes := String.list_byte_of_string "bscc"; Signature := [] |}
           (String.list_byte_of_string "ApproveSensoryReading")
           (String.list_byte_of_string "tx-1") []); reflexivity.
Defined.

Lemma Invoke_SimulateForkAttempt_witness :
  fst (BSCC.Invoke Fixture.nameOf
         (Fixture.stubFor "bscc" ["SimulateForkAttempt"; "anything"]) Fixture.fresh)
  = Return (shim.Success []).
Proof.
  apply (Invoke_SimulateForkAttempt Fixture.nameOf
           (Fixture.stubFor "bscc" ["SimulateForkAttempt"; "anything"]) Fixture.fresh
           {| ProposalBytes := String.list_byte_of_string "bscc"; Signature := [] |}
           (String.list_byte_of_string "SimulateForkAttempt")
           (String.list_byte_of_string "anything") []); reflexivity.
Defined.

Lemma Invoke_CheckForkStatus_delegates_witness :
  fst (BSCC.Invoke Fixture.nameOf
         (Fixture.stubFor "bscc" ["CheckForkStatus"; "channel-7"])
         (set_world Fixture.marked Fixture.fresh))
  = fst (BSCC.CheckForkStatus "channel-7" (set_world Fixture.marked Fixture.fresh)).
Proof.
  apply (Invoke_CheckForkStatus_delegates Fixture.nameOf
           (Fixture.stubFor "bscc" ["CheckForkStatus"; "channel-7"])
           (set_world Fixture.marked Fixture.fresh)
           {| ProposalBytes := String.list_byte_of_string "bscc"; Signature := [] |}
           (String.list_byte_of_string "CheckForkStatus")
           (String.list_byte_of_string "channel-7") []); reflexivity.
Defined.

Lemma Invoke_function_not_found_witness :
  fst (BSCC.Invoke Fixture.nameOf (Fixture.stubFor "bscc" ["UnknownFn"; "x"]) Fixture.fresh)
  = Return (shim.Error "Requested function UnknownFn not found.").
Proof.
  apply (Invoke_function_not_found Fixture.nameOf
           (Fixture.stubFor "bscc" ["UnknownFn"; "x"]) Fixture.fresh
           {| ProposalBytes := String.list_byte_of_string "bscc"; Signature := [] |}
           (String.list_byte_of_string "UnknownFn") (String.list_byte_of_string "x") []);
    first [reflexivity | discriminate].
Defined.

Lemma CheckForkStatus_only_observes_witness :
  calls (snd (BSCC.CheckForkStatus "channel-7" Fixture.fresh))
  = [CallStat (marker "channel-7")]
  /\ exists flag, fst (BSCC.CheckForkStatus "channel-7" Fixture.fresh)
                  = Return (shim.Success (encoded flag)).
Proof.
  apply (CheckForkStatus_only_observes "channel-7" Fixture.fresh). discriminate.
Defined.

Lemma Init_stores_configuration_witness :
  fst (BSCC.Init (Fixture.stubFor "bscc" []) (set_world Fixture.configured Fixture.fresh))
  = Return (shim.Success [])
  /\ config (self (snd (BSCC.Init (Fixture.stubFor "bscc" [])
                          (set_world Fixture.configured Fixture.fresh))))
     = {| PeerAddress := "peer0.org1:7051"; TLSCertFile := "/etc/tls/ca.crt";
          CryptoProvider := Some 1%nat |}.
Proof.
  rewrite (Init_stores_configuration (Fixture.stubFor "bscc" [])
             (set_world Fixture.configured Fixture.fresh)
             "peer0.org1:7051" "/etc/tls/ca.crt" eq_refl eq_refl).
  split; reflexivity.
Defined.

Lemma Init_without_peer_address_witness :
  fst (BSCC.Init (Fixture.stubFor "bscc" []) Fixture.fresh)
  = Return (shim.Error "CORE_PEER_ADDRESS is not set")
  /\ consumers (snd (BSCC.Init (Fixture.stubFor "bscc" []) Fixture.fresh)) = 1%nat.
Proof.
  rewrite (Init_without_peer_address (Fixture.stubFor "bscc" []) Fixture.fresh eq_refl).
  split; reflexivity.
Defined.

Lemma Init_without_tls_certificate_witness :
  fst (BSCC.Init (Fixture.stubFor "bscc" [])
         (set_world Fixture.halfConfigured Fixture.fresh))
  = Return (shim.Error "CORE_PEER_TLS_ROOTCERT_FILE is not set")
  /\ config (self (snd (BSCC.Init (Fixture.stubFor "bscc" [])
                          (set_world Fixture.halfConfigured Fixture.fresh))))
     = config (New Fixture.thePeer).
Proof.
  rewrite (Init_without_tls_certificate (Fixture.stubFor "bscc" [])
             (set_world Fixture.halfConfigured Fixture.fresh)
             "peer0.org1:7051" eq_refl eq_refl).
  split; reflexivity.
Defined.

Lemma createTempFile_round_trip_witness :
  files (world Fixture.fresh) !! "/tmp/rootCertFile0" = None
  /\ files (world (snd (BSCC.createTempFile (String.list_byte_of_string "CERT-A")
                          Fixture.fresh))) !! "/tmp/rootCertFile0"
     = Some (String.list_byte_of_string "CERT-A").
Proof.
  destruct (createTempFile_round_trip (String.list_byte_of_string "CERT-A") Fixture.fresh
              "/tmp/rootCertFile0") as (Hnew & Hheld & _);
    [vm_compute; reflexivity | ].
  split; [exact Hnew | exact Hheld].
Defined.

Lemma createTempFile_late_failure_leaves_file_witness :
  (exists e, fst (BSCC.createTempFile (String.list_byte_of_string "CERT-A")
                    (set_world Fixture.diskFull Fixture.fresh)) = Return (Err e))
  /\ is_Some (files (world (snd (BSCC.createTempFile (String.list_byte_of_string "CERT-A")
                                   (set_world Fixture.diskFull Fixture.fresh))))
                !! "/tmp/rootCertFile0").
Proof.
  destruct (createTempFile_late_failure_leaves_file (String.list_byte_of_string "CERT-A")
              (set_world Fixture.diskFull Fixture.fresh)
              (os.mkFile "/tmp/rootCertFile0")
              (snd (ioutil.TempFile Fixture.diskFull "" "rootCertFile")))
    as (Herr & _ & Hleft & _);
    [vm_compute; reflexivity | left; discriminate | ].
  split; [exact Herr | exact Hleft].
Defined.

Lemma removeTempFile_always_returns_witness :
  fst (BSCC.removeTempFile "/tmp/rootCertFile0" Fixture.fresh) = Return ()
  /\ log (snd (BSCC.removeTempFile "/tmp/rootCertFile0" Fixture.fresh))
     = [(ERROR, "Failed to remove temp file: remove /tmp/rootCertFile0: no such file or directory")]
  /\ log (snd (BSCC.removeTempFile "/tmp/rootCertFile0"
                 (set_world Fixture.stuck Fixture.fresh)))
     = [(ERROR, "Failed to remove temp file: remove /tmp/rootCertFile0: permission denied")].
Proof.
  destruct (removeTempFile_always_returns "/tmp/rootCertFile0" Fixture.fresh)
    as (Hret & _ & _ & Hlog & _).
  destruct (removeTempFile_always_returns "/tmp/rootCertFile0"
              (set_world Fixture.stuck Fixture.fresh))
    as (_ & _ & _ & _ & Hrefused).
  split; [exact Hret | ]. split.
  - apply Hlog; reflexivity.
  - apply (Hrefused EACCES). reflexivity.
Defined.

Lemma processEvent_lookup_error_witness :
  log (snd (BSCC.processEvent Fixture.approveOk
              {| ChannelID := "elsewhere"; SensoryTxID := "tx-2" |} Fixture.fresh))
  = [(INFO, "BLOCC - Received approval event: {elsewhere tx-2}");
     (ERROR, "Failed to gather orderer info: channel not found")].
Proof.
  rewrite (processEvent_lookup_error Fixture.approveOk
             {| ChannelID := "elsewhere"; SensoryTxID := "tx-2" |} Fixture.fresh
             [] (errors.New "channel not found") eq_refl).
  reflexivity.
Defined.

Lemma processEvent_staging_fails_witness :
  fst (BSCC.processEvent Fixture.approveOk Fixture.event7
         (set_world Fixture.closeFails Fixture.fresh)) = Return ()
  /\ submissions (calls (snd (BSCC.processEvent Fixture.approveOk Fixture.event7
                               (set_world Fixture.closeFails Fixture.fresh)))) = []
  /\ removals (calls (snd (BSCC.processEvent Fixture.approveOk Fixture.event7
                            (set_world Fixture.closeFails Fixture.fresh)))) = [].
Proof.
  destruct (processEvent_staging_fails Fixture.approveOk Fixture.event7
              (set_world Fixture.closeFails Fixture.fresh)
              "orderer0.example.com:7050" (String.list_byte_of_string "CERT-A")
              (PathError "close" "/tmp/rootCertFile0" (Efault EIO)))
    as (Hret & Hsub & Hrem & _);
    [reflexivity | vm_compute; reflexivity | ].
  split; [exact Hret | ]. split; [exact Hsub | exact Hrem].
Defined.

Lemma Init_then_processEvent_witness :
  submissions
    (calls (snd (BSCC.processEvent Fixture.approveOk Fixture.event7
                   (snd (BSCC.Init (Fixture.stubFor "bscc" [])
                           (set_world Fixture.configured Fixture.fresh))))))
  = [[ "--ordererAddress=orderer0.example.com:7050";
       "--rootCertFilePath=/tmp/rootCertFile0";
       "--channelID=channel-7";
       "--txID=tx-1";
       "--peerAddress=peer0.org1:7051";
       "--tlsRootCertFile=/etc/tls/ca.crt" ]].
Proof.
  apply (Init_then_processEvent Fixture.approveOk (Fixture.stubFor "bscc" []) Fixture.event7
           (set_world Fixture.configured Fixture.fresh)
           "peer0.org1:7051" "/etc/tls/ca.crt" "orderer0.example.com:7050"
           (String.list_byte_of_string "CERT-A") "/tmp/rootCertFile0");
    first [reflexivity | vm_compute; reflexivity].
Defined.

Lemma consume_leaves_no_files_witness :
  files (world (snd (BSCC.consume Fixture.approveFails
                       [Fixture.event7; {| ChannelID := "void"; SensoryTxID := "tx-2" |};
                        Fixture.event7]
                       (set_world Fixture.crowded Fixture.fresh))))
  = files Fixture.crowded.
Proof.
  apply (consume_leaves_no_files Fixture.approveFails (fun _ _ _ => eq_refl)
           [Fixture.event7; {| ChannelID := "void"; SensoryTxID := "tx-2" |}; Fixture.event7]
           (set_world Fixture.crowded Fixture.fresh)); reflexivity.
Defined.

Lemma signProposal_ok_iff_witness :
  chaincode.signProposal Fixture.marshal (Some Fixture.proposal1) (Some Fixture.tagSigner)
  = Ok {| ProposalBytes := String.list_byte_of_string "bscc";
          Signature := String.list_byte_of_string "sig:bscc" |}.
Proof.
  apply (signProposal_ok_iff Fixture.marshal (Some Fixture.proposal1)
           (Some Fixture.tagSigner)).
  exists Fixture.proposal1, Fixture.tagSigner. repeat split.
Defined.

Lemma signProposal_errors_witness :
  chaincode.signProposal Fixture.marshalFails (Some Fixture.proposal1)
    (Some Fixture.deadSigner)
  = Err (errors.New "error marshaling proposal: proto: size overflow")
  /\ chaincode.signProposal Fixture.marshal (Some Fixture.proposal1)
       (Some Fixture.deadSigner)
     = Err (errors.New "key unavailable").
Proof.
  split.
  - destruct (signProposal_errors Fixture.marshalFails Fixture.proposal1
                Fixture.deadSigner None) as (_ & _ & Hm & _).
    apply (Hm (errors.New "proto: size overflow")). reflexivity.
  - destruct (signProposal_errors Fixture.marshal Fixture.proposal1
                Fixture.deadSigner None) as (_ & _ & _ & Hs).
    apply (Hs (String.list_byte_of_string "bscc")); reflexivity.
Defined.

(** ** One consumer, or several *)

Section Interleaving.

Variable ApproveForThisPeerCmd : BCCSP -> list string -> World -> option error * World.

Lemma resolving_run (e : Event) (st : State) :
  resolving e st
  = let st1 := called (CallGetOrdererInfo (ChannelID e)) (received e st) in
    match fst (BSCC.gatherOrdererInfo (ChannelID e) st) with
    | Panic msg => (Panic msg, st1)
    | Return (Err err) =>
        (Return Idle, logged ERROR ("Failed to gather orderer info: " +:+ Error err) st1)
    | Return (Ok (address, rootCertFile)) => (Return (Resolved e address rootCertFile), st1)
    end.
Proof.
  rewrite <- (gatherOrdererInfo_self (ChannelID e) st (received e st) eq_refl).
  unfold resolving, bloccProtoLogger.Info.
  rewrite bind_run, logger_run. change (logged INFO _ st) with (received e st).
  rewrite bind_run.
  pose proof (gatherOrdererInfo_state (ChannelID e) (received e st)) as Hst.
  destruct (BSCC.gatherOrdererInfo (ChannelID e) (received e st)) as [o s1].
  simpl in Hst. subst s1. simpl fst. cbv zeta.
  destruct o as [[[address cert] | err] | msg]; reflexivity.
Qed.

Lemma staging_run (e : Event) (address : string) (rootCertFile : bytes) (st : State) :
  staging e address rootCertFile st
  = match BSCC.createTempFile rootCertFile st with
    | (Panic msg, st2) => (Panic msg, st2)
    | (Return (Err err), st2) =>
        (Return Idle, logged ERROR ("Failed to create temp file: " +:+ Error err) st2)
    | (Return (Ok p), st2) => (Return (Staged e address p), st2)
    end.
Proof.
  unfold staging. rewrite bind_run.
  destruct (BSCC.createTempFile rootCertFile st) as [[[p | err] | msg] st2]; reflexivity.
Qed.

Lemma submitting_run (e : Event) (address p : string) (st : State) :
  submitting ApproveForThisPeerCmd e address p st
  = let args := approvalArgs address p e (config (self st)) in
    let r := ApproveForThisPeerCmd (CryptoProvider (config (self st))) args (world st) in
    let st3 := set_world (snd r) (called (CallExecute args) st) in
    (Return (Submitted e address p),
     match fst r with
     | Some err => logged ERROR ("Failed to approve sensory reading: " +:+ Error err) st3
     | None => st3
     end).
Proof.
  unfold submitting, BSCC.approveSensoryReading.
  rewrite !bind_run. unfold get_self. rewrite bind_run, syscall_run.
  fold (approvalArgs address p e (config (self st))).
  unfold mret, M_ret. cbv zeta.
  destruct (fst (ApproveForThisPeerCmd _ _ _)); reflexivity.
Qed.

Lemma removing_run (p : string) (st : State) :
  removing p st = (Return Idle, snd (BSCC.removeTempFile p st)).
Proof.
  unfold removing. rewrite bind_run.
  destruct (removeTempFile_files p st) as (Hret & _).
  destruct (BSCC.removeTempFile p st) as [[[] | msg] s]; simpl in Hret;
    [reflexivity | discriminate Hret].
Qed.

(** The steps of one consumer on one event make up [BSCC.processEvent ApproveForThisPeerCmd]. *)
Lemma steps_make_processEvent (e : Event) (mid : State) :
  match resolving e mid with
  | (Panic msg, s1) => BSCC.processEvent ApproveForThisPeerCmd e mid = (Panic msg, s1)
  | (Return Idle, s1) => BSCC.processEvent ApproveForThisPeerCmd e mid = (Return (), s1)
  | (Return (Resolved e' address rootCertFile), s1) =>
      e' = e
      /\ match staging e address rootCertFile s1 with
         | (Return (Staged e'' address' p), s2) =>
             e'' = e /\ address' = address
             /\ match submitting ApproveForThisPeerCmd e address p s2 with
                | (Return (Submitted e3 address3 p3), s3) =>
                    e3 = e /\ address3 = address /\ p3 = p
                    /\ BSCC.processEvent ApproveForThisPeerCmd e mid = (Return (), snd (removing p s3))
                    /\ fst (removing p s3) = Return Idle
                | _ => False
                end
         | (Return Idle, s2) => BSCC.processEvent ApproveForThisPeerCmd e mid = (Return (), s2)
         | _ => False
         end
  | _ => False
  end.
Proof.
  rewrite processEvent_resolved, resolving_run. cbv zeta.
  destruct (fst (BSCC.gatherOrdererInfo (ChannelID e) mid))
    as [[[address cert] | err] | msg]; [ | reflexivity | reflexivity].
  split; [reflexivity | ]. rewrite staging_run.
  destruct (createTempFile_returns cert
              (called (CallGetOrdererInfo (ChannelID e)) (received e mid))) as [r Hr].
  destruct (BSCC.createTempFile cert _) as [o s2]. simpl in Hr. subst o.
  destruct r as [p | err]; [ | reflexivity].
  split; [reflexivity | ]. split; [reflexivity | ].
  rewrite submitting_run. cbv zeta.
  split; [reflexivity | ]. split; [reflexivity | ]. split; [reflexivity | ].
  rewrite removing_run. split; reflexivity.
Qed.

Lemma consume_snoc (events : list Event) (e : Event) (st : State) :
  BSCC.consume ApproveForThisPeerCmd (events ++ [e]) st
  = match BSCC.consume ApproveForThisPeerCmd events st with
    | (Return _, st') =>
        match BSCC.processEvent ApproveForThisPeerCmd e st' with
        | (Return _, st'') => (Return (), st'')
        | (Panic msg, st'') => (Panic msg, st'')
        end
    | (Panic msg, st') => (Panic msg, st')
    end.
Proof.
  revert st. induction events as [| e' events IH]; intros st; simpl.
  - rewrite bind_run. destruct (BSCC.processEvent ApproveForThisPeerCmd e st) as [[[] | msg] st']; reflexivity.
  - rewrite !bind_run. destruct (BSCC.processEvent ApproveForThisPeerCmd e' st) as [[[] | msg] st']; [apply IH | reflexivity].
Qed.

Lemma resolving_frame (e : Event) (st : State) (o : outcome Stage) (s1 : State) :
  resolving e st = (o, s1) ->
  self s1 = self st
  /\ calls s1 = calls st ++ [CallGetOrdererInfo (ChannelID e)].
Proof.
  rewrite resolving_run. cbv zeta.
  destruct (fst (BSCC.gatherOrdererInfo (ChannelID e) st)) as [[[address cert] | err] | msg];
    intros [= _ <-]; split; reflexivity.
Qed.

Lemma staging_frame (e : Event) (address : string) (rootCertFile : bytes) (st : State)
    (e' : Event) (address' p : string) (s2 : State) :
  staging e address rootCertFile st = (Return (Staged e' address' p), s2) ->
  self s2 = self st
  /\ calls s2 = calls st ++ [CallTempFile "" "rootCertFile"; CallWrite p; CallClose p].
Proof.
  rewrite staging_run. destruct (createTempFile_self rootCertFile st) as [Hs _].
  destruct (BSCC.createTempFile rootCertFile st) as [[[q | err] | msg] st2] eqn:Hc;
    [ | discriminate | discriminate].
  intros [= _ _ <- <-]. split; [exact Hs | ].
  destruct (createTempFile_ok rootCertFile st q) as (w' & Heq & _);
    [rewrite Hc; reflexivity | ].
  rewrite Hc in Heq. injection Heq as ->. simpl. rewrite <- !app_assoc. reflexivity.
Qed.

Lemma staging_idle_self (e : Event) (address : string) (rootCertFile : bytes)
    (st s2 : State) :
  staging e address rootCertFile st = (Return Idle, s2) -> self s2 = self st.
Proof.
  rewrite staging_run. destruct (createTempFile_self rootCertFile st) as [Hs _].
  destruct (BSCC.createTempFile rootCertFile st) as [[[q | err] | msg] st2];
    [discriminate | | discriminate].
  intros [= <-]. exact Hs.
Qed.

Lemma submitting_frame (e : Event) (address p : string) (st : State)
    (o : outcome Stage) (s3 : State) :
  submitting ApproveForThisPeerCmd e address p st = (o, s3) ->
  self s3 = self st
  /\ calls s3 = calls st ++ [CallExecute (approvalArgs address p e (config (self st)))].
Proof.
  rewrite submitting_run. cbv zeta. intros [= _ <-].
  destruct (fst (ApproveForThisPeerCmd _ _ _)); split; reflexivity.
Qed.

Lemma removing_self (p : string) (st : State) :
  self (snd (removing p st)) = self st.
Proof.
  rewrite removing_run. simpl. destruct (removeTempFile_files p st) as (_ & _ & _ & Hs).
  exact Hs.
Qed.

(** An event whose pipeline has ended joins the completed ones. *)
Lemma lone_completes (st1 : State) (completed : list Event) (blocks : list (list Call))
    (e : Event) (pending : list Event) (o : outcome unit) (s2 : State) :
  fst (BSCC.consume ApproveForThisPeerCmd completed st1) = Return () ->
  Forall2 pipeline completed blocks ->
  calls (snd (BSCC.consume ApproveForThisPeerCmd completed st1)) = calls st1 ++ concat blocks ->
  BSCC.processEvent ApproveForThisPeerCmd e (snd (BSCC.consume ApproveForThisPeerCmd completed st1)) = (o, s2) ->
  self s2 = self st1 ->
  lone_consumer ApproveForThisPeerCmd st1 (completed ++ [e] ++ pending)
    {| shared := s2; queue := pending; stages := [Idle];
       halted := match o with Panic _ => true | Return _ => false end |}.
Proof.
  intros Hret Hall Hmid Hpe Hself.
  destruct (processEvent_block ApproveForThisPeerCmd e (snd (BSCC.consume ApproveForThisPeerCmd completed st1)))
    as (block & Hb & Hp & _).
  rewrite Hpe in Hb. simpl in Hb.
  assert (Hsnoc : BSCC.consume ApproveForThisPeerCmd (completed ++ [e]) st1
                  = (match o with Panic msg => Panic msg | Return _ => Return () end, s2)).
  { rewrite consume_snoc. destruct (BSCC.consume ApproveForThisPeerCmd completed st1) as [oc mid]. simpl in *.
    subst oc. rewrite Hpe. destruct o; reflexivity. }
  exists Idle, (completed ++ [e]), (blocks ++ [block]). simpl.
  rewrite Hsnoc. simpl. rewrite concat_app. simpl. rewrite !app_nil_r.
  split; [reflexivity | ]. split; [rewrite <- app_assoc; reflexivity | ].
  split; [destruct o; [reflexivity | discriminate] | ].
  split; [reflexivity | ].
  split; [apply Forall2_app; [exact Hall | repeat constructor; exact Hp] | ].
  rewrite Hb, Hmid, <- !app_assoc. auto.
Qed.

Lemma lone_step (st1 : State) (evs : list Event) (s s' : Peers) (m : Move) :
  lone_consumer ApproveForThisPeerCmd st1 evs s ->
  is_CallInit m = false ->
  move ApproveForThisPeerCmd m s = Some s' ->
  lone_consumer ApproveForThisPeerCmd st1 (evs ++ posted [m]) s'.
Proof.
  intros (stage & completed & blocks & Hst & Hevs & Hret & Hstand & Hall & Hmid & Hcalls
          & Hself & Hmidself) Hm Hmove.
  unfold move in Hmove. destruct (halted s) eqn:Hh; [discriminate Hmove | ].
  specialize (Hret eq_refl).
  destruct m as [stub | e | i]; [discriminate Hm | | ].
  - injection Hmove as <-. exists stage, completed, blocks. simpl.
    rewrite Hevs, <- !app_assoc. auto 10.
  - simpl posted. rewrite app_nil_r. rewrite Hst in Hmove.
    destruct i as [| i]; [ | discriminate Hmove]. simpl in Hmove.
    destruct stage as [| e address cert | e address p | e address p]; simpl in Hstand.
    + destruct (queue s) as [| e pending] eqn:Hq; [discriminate Hmove | ].
      unfold proceed in Hmove. rewrite Hstand in Hmove.
      pose proof (steps_make_processEvent e (snd (BSCC.consume ApproveForThisPeerCmd completed st1))) as Hsteps.
      destruct (resolving e (snd (BSCC.consume ApproveForThisPeerCmd completed st1))) as [o s1] eqn:Hres.
      destruct (resolving_frame _ _ _ _ Hres) as [Hs1 Hc1].
      destruct o as [[| e' address cert | e' address p | e' address p] | msg];
        try contradiction; injection Hmove as <-; rewrite Hevs, Hst; simpl.
      * apply (lone_completes st1 completed blocks e pending (Return ()) s1); auto.
        congruence.
      * destruct Hsteps as [-> _].
        exists (Resolved e address cert), completed, blocks. simpl.
        rewrite Hc1, Hmid, <- !app_assoc. split; [reflexivity | ].
        split; [reflexivity | ]. split; [auto | ]. split; [exact Hres | ].
        split; [exact Hall | ]. split; [reflexivity | ]. split; [reflexivity | ].
        split; [congruence | exact Hmidself].
      * apply (lone_completes st1 completed blocks e pending (Panic msg) s1); auto.
        congruence.
    + unfold proceed in Hmove.
      pose proof (steps_make_processEvent e (snd (BSCC.consume ApproveForThisPeerCmd completed st1))) as Hsteps.
      rewrite Hstand in Hsteps. destruct Hsteps as [_ Hsteps].
      destruct (staging e address cert (shared s)) as [o s2] eqn:Hstg.
      destruct o as [[| e' address' cert' | e' address' p | e' address' p] | msg];
        try contradiction; injection Hmove as <-; rewrite Hevs, Hst; simpl.
      * apply (lone_completes st1 completed blocks e (queue s) (Return ()) s2); auto.
        rewrite (staging_idle_self _ _ _ _ _ Hstg). exact Hself.
      * destruct Hsteps as (-> & -> & _).
        destruct (staging_frame _ _ _ _ _ _ _ _ Hstg) as [Hs2 Hc2].
        exists (Staged e address p), completed, blocks. simpl.
        rewrite Hc2, Hcalls, <- !app_assoc. simpl.
        split; [reflexivity | ]. split; [reflexivity | ]. split; [auto | ].
        split; [exists cert, (shared s); auto | ].
        split; [exact Hall | ]. split; [exact Hmid | ]. split; [reflexivity | ].
        split; [congruence | exact Hmidself].
    + unfold proceed in Hmove. destruct Hstand as (cert & s1 & Hres & Hstg).
      pose proof (steps_make_processEvent e (snd (BSCC.consume ApproveForThisPeerCmd completed st1))) as Hsteps.
      rewrite Hres in Hsteps. destruct Hsteps as [_ Hsteps]. rewrite Hstg in Hsteps.
      destruct Hsteps as (_ & _ & Hsteps).
      destruct (submitting ApproveForThisPeerCmd e address p (shared s)) as [o s3] eqn:Hsub.
      destruct (submitting_frame _ _ _ _ _ _ Hsub) as [Hs3 Hc3].
      destruct o as [[| e' address' cert' | e' address' p' | e' address' p'] | msg];
        try contradiction; injection Hmove as <-; rewrite Hevs, Hst; simpl.
      destruct Hsteps as (-> & -> & -> & _).
      exists (Submitted e address p), completed, blocks. simpl.
      rewrite Hc3, Hcalls, Hself, <- !app_assoc. simpl.
      split; [reflexivity | ]. split; [reflexivity | ]. split; [auto | ].
      split; [exists cert, s1, (shared s); auto | ].
      split; [exact Hall | ]. split; [exact Hmid | ]. split; [reflexivity | ].
      split; [congruence | exact Hmidself].
    + unfold proceed in Hmove. destruct Hstand as (cert & s1 & s2 & Hres & Hstg & Hsub).
      pose proof (steps_make_processEvent e (snd (BSCC.consume ApproveForThisPeerCmd completed st1))) as Hsteps.
      rewrite Hres in Hsteps. destruct Hsteps as [_ Hsteps]. rewrite Hstg in Hsteps.
      destruct Hsteps as (_ & _ & Hsteps). rewrite Hsub in Hsteps.
      destruct Hsteps as (_ & _ & _ & Hpe & Hrm).
      pose proof (removing_self p (shared s)) as Hs4.
      destruct (removing p (shared s)) as [o s4]. simpl in Hrm, Hs4, Hpe. subst o.
      injection Hmove as <-. rewrite Hevs, Hst. simpl.
      apply (lone_completes st1 completed blocks e (queue s) (Return ()) s4); auto.
      congruence.
Qed.

Lemma lone_moves (st1 : State) (ms : list Move) (evs : list Event) (s s' : Peers) :
  lone_consumer ApproveForThisPeerCmd st1 evs s ->
  Forall (fun m => is_CallInit m = false) ms ->
  moves ApproveForThisPeerCmd ms s = Some s' ->
  lone_consumer ApproveForThisPeerCmd st1 (evs ++ posted ms) s'.
Proof.
  revert evs s. induction ms as [| m ms IH]; intros evs s Hinv Hno Hmoves.
  - injection Hmoves as <-. simpl. rewrite app_nil_r. exact Hinv.
  - simpl in Hmoves. destruct (move ApproveForThisPeerCmd m s) as [s1 | ] eqn:Hmove;
      [ | discriminate Hmoves].
    apply Forall_cons in Hno as [Hm Hno].
    pose proof (lone_step st1 evs s s1 m Hinv Hm Hmove) as Hinv1.
    pose proof (IH _ _ Hinv1 Hno Hmoves) as Hfinal.
    replace (evs ++ posted (m :: ms)) with ((evs ++ posted [m]) ++ posted ms); [exact Hfinal | ].
    rewrite <- app_assoc. f_equal. destruct m; simpl; reflexivity.
Qed.


Lemma Init_returns (stub : ChaincodeStub) (st : State) :
  exists r, fst (BSCC.Init stub st) = Return r.
Proof.
  unfold BSCC.Init, mbind, M_bind, mret, M_ret, bloccProtoLogger.Info,
    bloccProtoLogger.Error, logger, go_consumer, sys.LookupEnv, syscall, os.LookupEnv,
    get_self, set_config. simpl.
  destruct (environ (world st) !! "CORE_PEER_ADDRESS"); simpl; [ | eauto].
  destruct (environ (world st) !! "CORE_PEER_TLS_ROOTCERT_FILE"); simpl; eauto.
Qed.

(** The first call of [Init] leaves one idle consumer. *)
Lemma first_Init (w : World) (p : peer.Peer) (stub : ChaincodeStub) :
  move ApproveForThisPeerCmd (CallInit stub) (power_on w p)
  = Some {| shared := snd (BSCC.Init stub (state (boot w p))); queue := [];
            stages := [Idle]; halted := false |}.
Proof.
  unfold move. change (halted (power_on w p)) with false. cbv iota.
  change (shared (power_on w p)) with (state (boot w p)).
  change (queue (power_on w p)) with (@nil Event).
  change (stages (power_on w p)) with (@nil Stage).
  generalize (state (boot w p)). intros st0.
  pose proof (Init_consumers stub st0) as Hone.
  destruct (Init_returns stub st0) as [r Hr].
  destruct (BSCC.Init stub st0) as [o st]. simpl in Hone, Hr. subst o.
  rewrite Hone. replace (S (consumers st0) - consumers st0)%nat with 1%nat by lia.
  reflexivity.
Qed.

(** C8, as amended. On a peer where [Init] has been called once, there
    is one consumer, and after any sequence of publications and steps:
    the events published are, in order of publication, those whose
    pipeline has ended, the one in hand (if any), and those waiting;
    the calls made since [Init] are the pipelines of the ended events
    one after the other in that order, each of them complete, followed
    by the calls of the pipeline in hand; the state is the one the
    loop reaches by running [BSCC.processEvent ApproveForThisPeerCmd] on the ended events in that
    order and then the steps of the event in hand; and the approvals
    submitted are those of a subsequence of the published events, in
    order of publication. *)
Theorem one_consumer_in_arrival_order (w : World) (p : peer.Peer) (stub : ChaincodeStub)
    (ms : list Move) (s : Peers) :
  Forall (fun m => is_CallInit m = false) ms ->
  moves ApproveForThisPeerCmd (CallInit stub :: ms) (power_on w p) = Some s ->
  let st1 := snd (BSCC.Init stub (state (boot w p))) in
  let mid completed := snd (BSCC.consume ApproveForThisPeerCmd completed st1) in
  exists stage completed blocks,
    stages s = [stage]
    /\ posted ms = completed ++ in_hand stage ++ queue s
    /\ standing ApproveForThisPeerCmd (mid completed) stage (shared s)
    /\ (halted s = false ->
        fst (BSCC.consume ApproveForThisPeerCmd completed st1) = Return ())
    /\ Forall2 pipeline completed blocks
    /\ calls (shared s) = calls st1 ++ concat blocks ++ begun (config (self st1)) stage
    /\ exists submitted,
         sublist submitted (posted ms)
         /\ Forall2 submission_of submitted
              (submissions (concat blocks ++ begun (config (self st1)) stage)).
Proof.
  intros Hno Hmoves st1 mid. cbn [moves] in Hmoves.
  rewrite first_Init in Hmoves. fold st1 in Hmoves.
  assert (Hstart : lone_consumer ApproveForThisPeerCmd st1 []
                     {| shared := st1; queue := []; stages := [Idle]; halted := false |}).
  { exists Idle, [], []. simpl. rewrite app_nil_r. auto 10. }
  pose proof (lone_moves st1 ms [] _ s Hstart Hno Hmoves)
    as (stage & completed & blocks & Hst & Hevs & Hret & Hstand & Hall & Hmid & Hcalls & _).
  simpl in Hevs. exists stage, completed, blocks.
  split; [exact Hst | ]. split; [exact Hevs | ]. split; [exact Hstand | ].
  split; [exact Hret | ]. split; [exact Hall | ]. split; [exact Hcalls | ].
  destruct (submissions_of_pipelines _ _ Hall) as (done & Hsub & Hsubm).
  rewrite submissions_app, Hevs.
  destruct stage as [| e address cert | e address q | e address q]; simpl.
  - exists done. rewrite app_nil_r. split; [apply sublist_inserts_r, Hsub | exact Hsubm].
  - exists done. rewrite app_nil_r. split; [apply sublist_inserts_r, Hsub | exact Hsubm].
  - exists done. rewrite app_nil_r. split; [apply sublist_inserts_r, Hsub | exact Hsubm].
  - exists (done ++ [e]). split.
    + apply sublist_app; [exact Hsub | ]. apply sublist_skip, sublist_nil_l.
    + apply Forall2_app; [exact Hsubm | ]. repeat constructor.
Qed.

End Interleaving.

Lemma one_consumer_in_arrival_order_witness :
  exists s,
    moves Fixture.approveOk
      [CallInit (Fixture.stubFor "bscc" []);
       Post Fixture.event7; Post {| ChannelID := "void"; SensoryTxID := "tx-2" |};
       Advance 0; Advance 0; Advance 0; Advance 0; Advance 0; Post Fixture.event7; Advance 0]
      (power_on Fixture.configured Fixture.thePeer) = Some s
    /\ exists stage completed blocks,
         stages s = [stage]
         /\ [Fixture.event7; {| ChannelID := "void"; SensoryTxID := "tx-2" |}; Fixture.event7]
            = completed ++ in_hand stage ++ queue s
         /\ Forall2 pipeline completed blocks.
Proof.
  eexists. split; [vm_compute; reflexivity | ].
  match goal with |- context [stages ?s] =>
    destruct (one_consumer_in_arrival_order Fixture.approveOk Fixture.configured
                Fixture.thePeer (Fixture.stubFor "bscc" [])
                [Post Fixture.event7; Post {| ChannelID := "void"; SensoryTxID := "tx-2" |};
                 Advance 0; Advance 0; Advance 0; Advance 0; Advance 0; Post Fixture.event7;
                 Advance 0] s)
      as (stage & completed & blocks & Hst & Hevs & _ & _ & Hall & _)
  end.
  - repeat constructor.
  - vm_compute. reflexivity.
  - exists stage, completed, blocks. split; [exact Hst | ]. split; [exact Hevs | exact Hall].
Defined.

(** C8, as stated, fails: every call of [Init] starts a consumer.  After
    two calls, two consumers take the two events published: the second
    event's pipeline starts while the first one's is under way, and its
    approval is submitted first. *)
Lemma two_consumers_overlap :
  let first := {| ChannelID := "channel-7"; SensoryTxID := "tx-1" |} in
  let second := {| ChannelID := "channel-7"; SensoryTxID := "tx-2" |} in
  exists s,
    moves Fixture.approveOk
      [CallInit (Fixture.stubFor "bscc" []); CallInit (Fixture.stubFor "bscc" []);
       Post first; Post second;
       Advance 0; Advance 1; Advance 1; Advance 1; Advance 1;
       Advance 0; Advance 0; Advance 0]
      (power_on Fixture.configured Fixture.thePeer) = Some s
    /\ consumers (shared s) = 2%nat
    /\ drop 6 (calls (shared s))
       = [CallGetOrdererInfo "channel-7"; CallGetOrdererInfo "channel-7";
          CallTempFile "" "rootCertFile"; CallWrite "/tmp/rootCertFile0";
          CallClose "/tmp/rootCertFile0";
          CallExecute (approvalArgs "orderer0.example.com:7050" "/tmp/rootCertFile0" second
                         (config (self (shared s))));
          CallRemove "/tmp/rootCertFile0";
          CallTempFile "" "rootCertFile"; CallWrite "/tmp/rootCertFile1";
          CallClose "/tmp/rootCertFile1";
          CallExecute (approvalArgs "orderer0.example.com:7050" "/tmp/rootCertFile1" first
                         (config (self (shared s))));
          CallRemove "/tmp/rootCertFile1"]
    /\ (submissions (calls (shared s))) !! 0%nat
       = Some (approvalArgs "orderer0.example.com:7050" "/tmp/rootCertFile0" second
                 (config (self (shared s)))).
Proof.
  eexists. split; [vm_compute; reflexivity | ].
  vm_compute. repeat split.
Qed.
